(** * Image Enhancer: the web client [web/src/app/App.tsx]

    A shallow embedding of the React client of the image enhancer and of
    the parts of the JavaScript and Web platform it calls, followed by
    the properties of the client that the specification states.

    JavaScript strings are modelled as [string], a sequence of code units
    below 256; JavaScript numbers are IEEE 754 binary64 values, the
    kernel's primitive [float]. *)

From Stdlib Require Import ZArith NArith QArith Qround Bool List String Ascii Lia.
From Stdlib.Strings Require Import Byte.
From Stdlib Require Import PrimFloat SpecFloat FloatOps DecimalString.
Import ListNotations.

Set Warnings "-inexact-float".

Local Open Scope Z_scope.

(* ================================================================== *)
(** * Strings *)
(* ================================================================== *)

Module Str.

Definition code (c : ascii) : Z := Z.of_N (N_of_ascii c).

Definition is_digit (c : ascii) : bool := (48 <=? code c) && (code c <=? 57).

Definition is_upper (c : ascii) : bool := (65 <=? code c) && (code c <=? 90).

(** The printable range U+0020 .. U+007E. *)
Definition is_printable (c : ascii) : bool := (32 <=? code c) && (code c <=? 126).

Definition to_lower (c : ascii) : ascii :=
  if is_upper c then ascii_of_N (N_of_ascii c + 32) else c.

Fixpoint map (f : ascii -> ascii) (s : string) : string :=
  match s with
  | EmptyString => EmptyString
  | String c r => String (f c) (map f r)
  end.

Fixpoint forallb (p : ascii -> bool) (s : string) : bool :=
  match s with
  | EmptyString => true
  | String c r => p c && forallb p r
  end.

Fixpoint existsb (p : ascii -> bool) (s : string) : bool :=
  match s with
  | EmptyString => false
  | String c r => p c || existsb p r
  end.

(** [span p s] splits [s] after its longest prefix of characters
    satisfying [p]. *)
Fixpoint span (p : ascii -> bool) (s : string) : string * string :=
  match s with
  | EmptyString => (EmptyString, EmptyString)
  | String c r =>
      if p c then let (a, b) := span p r in (String c a, b)
      else (EmptyString, s)
  end.

Fixpoint drop_while (p : ascii -> bool) (s : string) : string :=
  match s with
  | EmptyString => EmptyString
  | String c r => if p c then drop_while p r else s
  end.

Fixpoint repeat (c : ascii) (n : nat) : string :=
  match n with
  | O => EmptyString
  | S k => String c (repeat c k)
  end.

(** [strip_prefix p s] is the rest of [s] after [p], when [s] starts
    with [p]. *)
Fixpoint strip_prefix (p s : string) : option string :=
  match p, s with
  | EmptyString, _ => Some s
  | String a p', String b s' =>
      if Ascii.eqb a b then strip_prefix p' s' else None
  | String _ _, EmptyString => None
  end.

Definition starts_with (p s : string) : bool :=
  match strip_prefix p s with Some _ => true | None => false end.

Definition is_empty (s : string) : bool :=
  match s with EmptyString => true | String _ _ => false end.

(** The decimal numeral of a non-negative integer. *)
Definition of_nonneg (z : Z) : string :=
  NilZero.string_of_uint (N.to_uint (Z.to_N z)).

(** The value of a string of digits in radix [r], most significant
    first, continuing from [acc]. *)
Fixpoint digits_value (r : Z) (dv : ascii -> Z) (s : string) (acc : Z) : Z :=
  match s with
  | EmptyString => acc
  | String c t => digits_value r dv t (acc * r + dv c)
  end.

End Str.

(* ================================================================== *)
(** * The JavaScript values and built-ins the client uses *)
(* ================================================================== *)

Module JS.

Definition number := float.

(** ** Truthiness of a string: every string but the empty one. *)
Definition truthy (s : string) : bool := negb (Str.is_empty s).

(** ** Rounding an exact value to a Number *)

(** The Number nearest to the integer [z], ties to even. *)
Definition of_Z (z : Z) : number := SF2Prim (binary_normalize prec emax z 0 false).

(** The Number nearest to [n / d] for integers [n, d > 0], ties to even.
    The quotient is taken with more than 64 bits and a sticky bit for
    the remainder, which [binary_normalize] then rounds once. *)
Definition of_ratio_pos (n d : Z) : spec_float :=
  let k := Z.max 0 (66 + Z.log2 d - Z.log2 n) in
  let q := (n * 2 ^ k) / d in
  let sticky := if (n * 2 ^ k) mod d =? 0 then 0 else 1 in
  binary_normalize prec emax (2 * q + sticky) (- k - 1) false.

(** The Number nearest to a rational: the value of a decimal literal. *)
Definition of_Q (q : Q) : number :=
  match Qnum q with
  | Z0 => zero
  | Zpos n => SF2Prim (of_ratio_pos (Zpos n) (Zpos (Qden q)))
  | Zneg n => SF2Prim (SFopp (of_ratio_pos (Zpos n) (Zpos (Qden q))))
  end.

(** The Number nearest to [m * 10^e] for an integer [m > 0]. *)
Definition of_decimal_pos (m e : Z) : spec_float :=
  if 0 <=? e then of_ratio_pos (m * 10 ^ e) 1
  else of_ratio_pos m (10 ^ (- e)).

Definition num_digits (m : Z) : Z := Z.of_nat (String.length (Str.of_nonneg m)).

(** [of_decimal neg m e] is the Number for the decimal [(-1)^neg * m * 10^e],
    [0 <= m].  Values beyond 10^400 are infinite and values below
    10^-400 are zero whatever the digits, so the power is not computed
    for them. *)
Definition of_decimal (neg : bool) (m e : Z) : number :=
  let r :=
    if m =? 0 then S754_zero false
    else if 400 <? num_digits m + e then S754_infinity false
    else if num_digits m + e <? -400 then S754_zero false
    else of_decimal_pos m e in
  SF2Prim (if neg then SFopp r else r).

(** ** Number::toString, radix 10 (ECMA-262, 6.1.6.1.20)

    For a finite [x = m * 2^e > 0] the standard asks for integers [n],
    [k >= 1] and [s] with [10^(k-1) <= s < 10^k] such that [s * 10^(n-k)]
    is a decimal that reads back as [x], with [k] as small as possible
    and, among those, [s * 10^(n-k)] closest to [x]. *)

Definition pow10 (n : Z) : Q := Qpower (inject_Z 10) n.
Definition pow2 (n : Z) : Q := Qpower (inject_Z 2) n.

(** The exact value of [m * 2^e]. *)
Definition exact (m : positive) (e : Z) : Q := (inject_Z (Zpos m) * pow2 e)%Q.

(** The decimals that round to [m * 2^e]: those within half the gap to
    the next Number above and below, the ends included when [m] is even.
    Below a power of two (but for the smallest exponent) the gap is half
    as wide. *)
Definition reads_back (m : positive) (e : Z) (v : Q) : bool :=
  let x := exact m e in
  let up := pow2 (e - 1) in
  let down := if (Zpos m =? 2 ^ 52) && (-1074 <? e) then pow2 (e - 2) else pow2 (e - 1) in
  if Z.even (Zpos m)
  then Qle_bool (x - down)%Q v && Qle_bool v (x + up)%Q
  else negb (Qle_bool v (x - down)%Q) && negb (Qle_bool (x + up)%Q v).

(** The [n] with [10^(n-1) <= x < 10^n], searched upwards from a lower
    estimate. *)
Fixpoint magnitude_from (fuel : nat) (n : Z) (x : Q) : Z :=
  match fuel with
  | O => n
  | S f => if Qle_bool (pow10 n) x then magnitude_from f (n + 1) x else n
  end.

Definition magnitude (m : positive) (e : Z) : Z :=
  let lg := Z.log2 (Zpos m) + e in
  magnitude_from 8 (lg * 30103 / 100000 - 1) (exact m e).

(** The better of the two [k]-digit decimals around [x], when one reads
    back as [x]. *)
Definition shortest_at (m : positive) (e n k : Z) : option Z :=
  let x := exact m e in
  let u := pow10 (n - k) in
  let lo := Qfloor (x / u)%Q in
  let hi := lo + 1 in
  let vlo := (inject_Z lo * u)%Q in
  let vhi := (inject_Z hi * u)%Q in
  match reads_back m e vlo, reads_back m e vhi with
  | false, false => None
  | true, false => Some lo
  | false, true => Some hi
  | true, true =>
      match Qcompare (x - vlo)%Q (vhi - x)%Q with
      | Lt => Some lo
      | Gt => Some hi
      | Eq => Some (if Z.even lo then lo else hi)
      end
  end.

Fixpoint shortest_from (fuel : nat) (m : positive) (e n k : Z) : Z * Z :=
  match fuel with
  | O => (Qfloor (exact m e / pow10 (n - k))%Q, k)
  | S f =>
      match shortest_at m e n k with
      | Some s => (s, k)
      | None => shortest_from f m e n (k + 1)
      end
  end.

(** The digits [s], their number [k] and the exponent [n].  Seventeen
    digits always suffice; a candidate [s = 10^k] is the one digit 1 one
    place higher. *)
Definition shortest (m : positive) (e : Z) : Z * Z * Z :=
  let n := magnitude m e in
  let (s, k) := shortest_from 17 m e n 1 in
  if s =? 10 ^ k then (1, 1, n + 1) else (s, k, n).

Definition zeros (n : Z) : string := Str.repeat "0"%char (Z.to_nat n).

Definition exponent_part (n : Z) : string :=
  ("e" ++ (if (0 <=? n - 1)%Z then "+" else "-") ++ Str.of_nonneg (Z.abs (n - 1)))%string.

Definition finite_to_string (m : positive) (e : Z) : string :=
  let '(s, k, n) := shortest m e in
  let d := Str.of_nonneg s in
  if (k <=? n) && (n <=? 21) then (d ++ zeros (n - k))%string
  else if (0 <? n) && (n <=? 21) then
    (String.substring 0 (Z.to_nat n) d ++ "." ++
     String.substring (Z.to_nat n) (Z.to_nat (k - n)) d)%string
  else if (-6 <? n) && (n <=? 0) then ("0." ++ zeros (- n) ++ d)%string
  else if k =? 1 then (d ++ exponent_part n)%string
  else (String.substring 0 1 d ++ "." ++
        String.substring 1 (Z.to_nat (k - 1)) d ++ exponent_part n)%string.

(** [String(x)] of a Number. *)
Definition NumberToString (x : number) : string :=
  match Prim2SF x with
  | S754_nan => "NaN"
  | S754_zero _ => "0"
  | S754_infinity s => if s then "-Infinity" else "Infinity"
  | S754_finite s m e =>
      ((if s then "-" else "") ++ finite_to_string m e)%string
  end.

(** ** Scanning numerals *)

(** White space and line terminators below U+0100: TAB, LF, VT, FF, CR,
    SPACE and NO-BREAK SPACE. *)
Definition is_white_space (c : ascii) : bool :=
  let n := Str.code c in
  ((9 <=? n) && (n <=? 13)) || (n =? 32) || (n =? 160).

Definition trim_start (s : string) : string := Str.drop_while is_white_space s.

(** An optional sign: whether it is a minus, and the rest. *)
Definition take_sign (s : string) : bool * string :=
  match s with
  | String "-" r => (true, r)
  | String "+" r => (false, r)
  | _ => (false, s)
  end.

Definition decimal_digit (c : ascii) : Z := Str.code c - 48.

Definition is_hex_digit (c : ascii) : bool :=
  let n := Str.code c in
  Str.is_digit c || ((65 <=? n) && (n <=? 70)) || ((97 <=? n) && (n <=? 102)).

Definition hex_digit (c : ascii) : Z :=
  let n := Str.code c in
  if Str.is_digit c then n - 48 else if n <=? 70 then n - 55 else n - 87.

(** ** parseInt(string), no radix given (ECMA-262, 19.2.5)

    Leading white space is skipped, then a sign; a [0x] or [0X] prefix
    selects radix 16, otherwise the radix is 10; the digits up to the
    first character that is not one are the value, and no digit at all
    gives NaN.  A zero keeps the sign. *)
Definition parseInt (s : string) : number :=
  let (neg, u) := take_sign (trim_start s) in
  let '(hex, v) :=
    match u with
    | String "0" (String "x" r) => (true, r)
    | String "0" (String "X" r) => (true, r)
    | _ => (false, u)
    end in
  let (ds, _) := Str.span (if hex then is_hex_digit else Str.is_digit) v in
  if Str.is_empty ds then nan
  else
    let n := if hex then Str.digits_value 16 hex_digit ds 0
             else Str.digits_value 10 decimal_digit ds 0 in
    if n =? 0 then (if neg then neg_zero else zero)
    else of_Z (if neg then - n else n).

(** An exponent part, [e] or [E] followed by an optional sign and
    digits: its value and what follows it; 0 and all of [s] when [s]
    does not start with a complete one. *)
Definition exponent_part_of (s : string) : Z * string :=
  match s with
  | String c r =>
      if (Ascii.eqb c "e" || Ascii.eqb c "E")%bool then
        let (neg, r') := take_sign r in
        let (ds, rest) := Str.span Str.is_digit r' in
        if Str.is_empty ds then (0, s)
        else let n := Str.digits_value 10 decimal_digit ds 0 in
             (if neg then - n else n, rest)
      else (0, s)
  | EmptyString => (0, s)
  end.

(** ** parseFloat(string) (ECMA-262, 19.2.4)

    The longest prefix of the trimmed string that is a StrDecimalLiteral:
    a sign, then [Infinity], or digits with an optional fraction and an
    optional exponent part; NaN when there is none. *)
Definition parseFloat (s : string) : number :=
  let (neg, u) := take_sign (trim_start s) in
  if Str.starts_with "Infinity" u then (if neg then neg_infinity else infinity)
  else
    let (ip, r1) := Str.span Str.is_digit u in
    let (fp, r2) :=
      match r1 with
      | String "." r => Str.span Str.is_digit r
      | _ => (EmptyString, r1)
      end in
    if Str.is_empty ip && Str.is_empty fp then nan
    else
      of_decimal neg
        (Str.digits_value 10 decimal_digit (ip ++ fp) 0)
        (fst (exponent_part_of r2) - Z.of_nat (String.length fp)).

(** ** String.prototype.split with a one-character separator

    The pieces between the separators, in order; never empty. *)
Fixpoint split (sep : ascii) (s : string) : list string :=
  match s with
  | EmptyString => [EmptyString]
  | String c r =>
      if Ascii.eqb c sep then EmptyString :: split sep r
      else match split sep r with
           | h :: t => String c h :: t
           | [] => [String c EmptyString]
           end
  end.

(** ** header.match(re) for the pattern of [dataUrlToBlob]

    The pattern is [data:], then a captured group of any number of [.],
    then [;base64]; it is not anchored.  [.] matches every character
    but a line terminator.  The star is greedy: the capture is the
    longest run of such characters that is followed by [;base64]. *)
Definition is_line_terminator (c : ascii) : bool :=
  (Str.code c =? 10) || (Str.code c =? 13).

Fixpoint capture_before_base64 (s : string) : option string :=
  let shortest :=
    if Str.starts_with ";base64" s then Some EmptyString else None in
  match s with
  | EmptyString => shortest
  | String c r =>
      if is_line_terminator c then shortest
      else match capture_before_base64 r with
           | Some cap => Some (String c cap)
           | None => shortest
           end
  end.

(** The first capture group of the leftmost match, [None] when the
    pattern matches nowhere. *)
Fixpoint match_data_base64 (s : string) : option string :=
  let here :=
    match Str.strip_prefix "data:" s with
    | Some rest => capture_before_base64 rest
    | None => None
    end in
  match here with
  | Some cap => Some cap
  | None =>
      match s with
      | EmptyString => None
      | String _ r => match_data_base64 r
      end
  end.

(** ToString of a value that is a string or [undefined]. *)
Definition ToString_or_undefined (v : option string) : string :=
  match v with
  | Some s => s
  | None => "undefined"
  end.

End JS.

(* ================================================================== *)
(** * Web platform: base64 and Blob *)
(* ================================================================== *)

Module Web.

Local Open Scope N_scope.

(** ** The base64 alphabet (RFC 4648, table 1) *)

Definition char_of_sextet (n : N) : ascii :=
  if n <? 26 then ascii_of_N (n + 65)
  else if n <? 52 then ascii_of_N (n + 71)
  else if n <? 62 then ascii_of_N (n - 4)
  else if n =? 62 then "+"%char
  else "/"%char.

Definition sextet_of_char (c : ascii) : option N :=
  let n := N_of_ascii c in
  if (65 <=? n) && (n <=? 90) then Some (n - 65)
  else if (97 <=? n) && (n <=? 122) then Some (n - 71)
  else if (48 <=? n) && (n <=? 57) then Some (n + 4)
  else if n =? 43 then Some 62
  else if n =? 47 then Some 63
  else None.

Fixpoint sextets_of_chars (l : list ascii) : option (list N) :=
  match l with
  | [] => Some []
  | c :: r =>
      match sextet_of_char c, sextets_of_chars r with
      | Some n, Some ns => Some (n :: ns)
      | _, _ => None
      end
  end.

(** ** Forgiving-base64 decode (WHATWG Infra), which [atob] runs *)

(** ASCII white space: TAB, LF, FF, CR and SPACE. *)
Definition is_ascii_whitespace (c : ascii) : bool :=
  let n := N_of_ascii c in
  (n =? 9) || (n =? 10) || (n =? 12) || (n =? 13) || (n =? 32).

(** One or two [=] at the end are removed. *)
Definition strip_padding (d : list ascii) : list ascii :=
  match rev d with
  | "="%char :: "="%char :: r => rev r
  | "="%char :: r => rev r
  | _ => d
  end.

(** Four sextets give three bytes; a last group of two gives one byte
    and of three gives two, the bits left over being dropped. *)
Fixpoint bytes_of_sextets (l : list N) : list ascii :=
  match l with
  | a :: b :: c :: d :: r =>
      ascii_of_N (a * 4 + b / 16) :: ascii_of_N ((b mod 16) * 16 + c / 4)
        :: ascii_of_N ((c mod 4) * 64 + d) :: bytes_of_sextets r
  | [a; b; c] =>
      [ascii_of_N (a * 4 + b / 16); ascii_of_N ((b mod 16) * 16 + c / 4)]
  | [a; b] => [ascii_of_N (a * 4 + b / 16)]
  | _ => []
  end.

(** [atob(data)]: [None] stands for the InvalidCharacterError it throws.
    White space is removed; if the length is then a multiple of 4 the
    padding is removed; a length of 1 modulo 4 and any character outside
    the alphabet are errors. *)
Definition atob (data : string) : option string :=
  let d := filter (fun c => negb (is_ascii_whitespace c)) (list_ascii_of_string data) in
  let d := if N.of_nat (List.length d) mod 4 =? 0 then strip_padding d else d in
  if N.of_nat (List.length d) mod 4 =? 1 then None
  else match sextets_of_chars d with
       | Some ns => Some (string_of_list_ascii (bytes_of_sextets ns))
       | None => None
       end.

(** ** Base64 encoding (RFC 4648, section 4)

    The encoding the data URLs of the service are written in; the
    component only decodes.  Three bytes give four sextets; a last group
    of one byte gives two sextets and [==], of two bytes three sextets
    and [=], the missing bits being zero. *)
Fixpoint sextets_of_bytes (l : list byte) : list N :=
  match l with
  | a :: b :: c :: r =>
      let '(a, b, c) := (Byte.to_N a, Byte.to_N b, Byte.to_N c) in
      a / 4 :: (a mod 4) * 16 + b / 16 :: (b mod 16) * 4 + c / 64 :: c mod 64
        :: sextets_of_bytes r
  | [a; b] =>
      let '(a, b) := (Byte.to_N a, Byte.to_N b) in
      [a / 4; (a mod 4) * 16 + b / 16; (b mod 16) * 4]
  | [a] =>
      let a := Byte.to_N a in
      [a / 4; (a mod 4) * 16]
  | [] => []
  end.

Definition padding (l : list byte) : list ascii :=
  match (List.length l mod 3)%nat with
  | 1%nat => ["="%char; "="%char]
  | 2%nat => ["="%char]
  | _ => []
  end.

Definition base64 (l : list byte) : string :=
  string_of_list_ascii (List.map char_of_sextet (sextets_of_bytes l) ++ padding l).

(** ** Blob *)

Record Blob := { blob_bytes : list byte; blob_type : string }.

(** [new Blob([buf], { type })] (File API, 3.1): a type with a character
    outside U+0020 .. U+007E becomes the empty string, any other type is
    converted to ASCII lower case. *)
Definition new_Blob (buf : list byte) (type : string) : Blob :=
  {| blob_bytes := buf;
     blob_type := if Str.forallb Str.is_printable type
                  then Str.map Str.to_lower type else EmptyString |}.

(** ** Number inputs: the value as a number, and [min]

    The rules for parsing floating-point number values (HTML, 2.3.4.3),
    by which an [<input type="number">] converts its value and its [min]
    attribute to a number: leading ASCII white space is skipped, then
    come an optional sign, digits with an optional fraction, and an
    optional exponent part; no digit at all is an error.  The result is
    the nearest finite Number, a zero being the positive one; a value
    that rounds beyond the largest Number is an error. *)
Definition parse_floating_point_number (s : string) : option JS.number :=
  let (neg, u) := JS.take_sign (Str.drop_while is_ascii_whitespace s) in
  let (ip, r1) := Str.span Str.is_digit u in
  let (fp, r2) :=
    match r1 with
    | String "." r => Str.span Str.is_digit r
    | _ => (EmptyString, r1)
    end in
  if Str.is_empty ip && Str.is_empty fp then None
  else
    let x :=
      JS.of_decimal neg
        (Str.digits_value 10 JS.decimal_digit (ip ++ fp) 0)
        (fst (JS.exponent_part_of r2) - Z.of_nat (String.length fp))%Z in
    if PrimFloat.eqb (PrimFloat.abs x) infinity then None
    else Some (if PrimFloat.eqb x zero then zero else x).

(** Suffering from an underflow (HTML, 4.10.21.1 and 4.10.5.3.7): the
    element has a minimum, its value converts to a number, and the
    number is less than the minimum.  An empty value converts to no
    number and so never underflows. *)
Definition suffers_underflow (min value : string) : bool :=
  match parse_floating_point_number min, parse_floating_point_number value with
  | Some m, Some v => PrimFloat.ltb v m
  | _, _ => false
  end.

End Web.

(* ================================================================== *)
(** * [dataUrlToBlob] *)
(* ================================================================== *)

(** [[
function dataUrlToBlob(dataUrl: string): Blob {
  const [header, base64] = dataUrl.split(',')
  const mimeMatch = header.match(re)     // re: data: (any run, captured) ;base64
  const mime = mimeMatch ? mimeMatch[1] : 'application/octet-stream'
  const bytes = atob(base64)
  const buf = new Uint8Array(bytes.length)
  for (let i = 0; i < bytes.length; i++) buf[i] = bytes.charCodeAt(i)
  return new Blob([buf], { type: mime })
}
]]
    [None] is the exception of [atob].  [base64] is [undefined] when the
    argument has no comma. *)
Definition dataUrlToBlob (dataUrl : string) : option Web.Blob :=
  let parts := JS.split "," dataUrl in
  let header := hd EmptyString parts in
  let base64 := nth_error parts 1 in
  let mime :=
    match JS.match_data_base64 header with
    | Some m => m
    | None => "application/octet-stream"%string
    end in
  match Web.atob (JS.ToString_or_undefined base64) with
  | None => None
  | Some bytes =>
      let buf := List.map byte_of_ascii (list_ascii_of_string bytes) in
      Some (Web.new_Blob buf mime)
  end.

(* ================================================================== *)
(** * The component [App] *)
(* ================================================================== *)

Module App.

(** ** Values the component handles *)

(** A file chosen in the file input. *)
Record File := { file_name : string; file_type : string; file_bytes : list byte }.

(** An entry of a [FormData]: a file or a string.  [append] adds at the
    end and keeps earlier entries of the same name. *)
Inductive FormValue :=
| FormFile (f : File)
| FormString (s : string).

Definition FormData := list (string * FormValue).

Definition append (form : FormData) (name : string) (v : FormValue) : FormData :=
  form ++ [(name, v)].

(** [form.get(name)]: the first entry of that name. *)
Fixpoint get (form : FormData) (name : string) : option FormValue :=
  match form with
  | [] => None
  | (n, v) :: rest => if String.eqb n name then Some v else get rest name
  end.

(** The names of the entries, in order. *)
Definition names (form : FormData) : list string := List.map fst form.

(** A call of [fetch]. *)
Record Request := { req_method : string; req_url : string; req_body : FormData }.

(** The response body as the component types it: every key optional. *)
Record Result := {
  png : option string;
  jpg : option string;
  webp : option string;
  apng : option string
}.

(** A thrown value, read through [err?.message]. *)
Record Thrown := { message : option string }.

Definition Error (msg : string) : Thrown := {| message := Some msg |}.

(** A response of [fetch]: its status, and what [res.json()] settles to,
    a thrown value or the parsed body ([None] is [null]). *)
Record Response := { status : Z; json : Thrown + option Result }.

(** [res.ok]: the status is in 200 .. 299. *)
Definition ok (res : Response) : bool := (200 <=? status res) && (status res <=? 299).

(** How the promise of [fetch] settles. *)
Inductive FetchOutcome :=
| Rejected (err : Thrown)
| Resolved (res : Response).

(** ** State: one field per [useState] *)

Record State := {
  file : option File;
  busy : bool;
  error : option string;
  scale : JS.number;
  width : string;
  height : string;
  denoiseLuma : JS.number;
  denoiseColor : JS.number;
  claheClip : JS.number;
  sharpenAmount : JS.number;
  sharpenSigma : JS.number;
  saturation : JS.number;
  result : option Result
}.

(** The arguments of the [useState] calls. *)
Definition initial : State :=
  {| file := None;
     busy := false;
     error := None;
     scale := 2%float;
     width := EmptyString;
     height := EmptyString;
     denoiseLuma := 5%float;
     denoiseColor := 5%float;
     claheClip := 2.0%float;
     sharpenAmount := 0.6%float;
     sharpenSigma := 1.2%float;
     saturation := 1.05%float;
     result := None |}.

Definition setFile (v : option File) (st : State) : State :=
  {| file := v;
     busy := busy st;
     error := error st;
     scale := scale st;
     width := width st;
     height := height st;
     denoiseLuma := denoiseLuma st;
     denoiseColor := denoiseColor st;
     claheClip := claheClip st;
     sharpenAmount := sharpenAmount st;
     sharpenSigma := sharpenSigma st;
     saturation := saturation st;
     result := result st |}.

Definition setBusy (v : bool) (st : State) : State :=
  {| file := file st;
     busy := v;
     error := error st;
     scale := scale st;
     width := width st;
     height := height st;
     denoiseLuma := denoiseLuma st;
     denoiseColor := denoiseColor st;
     claheClip := claheClip st;
     sharpenAmount := sharpenAmount st;
     sharpenSigma := sharpenSigma st;
     saturation := saturation st;
     result := result st |}.

Definition setError (v : option string) (st : State) : State :=
  {| file := file st;
     busy := busy st;
     error := v;
     scale := scale st;
     width := width st;
     height := height st;
     denoiseLuma := denoiseLuma st;
     denoiseColor := denoiseColor st;
     claheClip := claheClip st;
     sharpenAmount := sharpenAmount st;
     sharpenSigma := sharpenSigma st;
     saturation := saturation st;
     result := result st |}.

Definition setScale (v : JS.number) (st : State) : State :=
  {| file := file st;
     busy := busy st;
     error := error st;
     scale := v;
     width := width st;
     height := height st;
     denoiseLuma := denoiseLuma st;
     denoiseColor := denoiseColor st;
     claheClip := claheClip st;
     sharpenAmount := sharpenAmount st;
     sharpenSigma := sharpenSigma st;
     saturation := saturation st;
     result := result st |}.

Definition setWidth (v : string) (st : State) : State :=
  {| file := file st;
     busy := busy st;
     error := error st;
     scale := scale st;
     width := v;
     height := height st;
     denoiseLuma := denoiseLuma st;
     denoiseColor := denoiseColor st;
     claheClip := claheClip st;
     sharpenAmount := sharpenAmount st;
     sharpenSigma := sharpenSigma st;
     saturation := saturation st;
     result := result st |}.

Definition setHeight (v : string) (st : State) : State :=
  {| file := file st;
     busy := busy st;
     error := error st;
     scale := scale st;
     width := width st;
     height := v;
     denoiseLuma := denoiseLuma st;
     denoiseColor := denoiseColor st;
     claheClip := claheClip st;
     sharpenAmount := sharpenAmount st;
     sharpenSigma := sharpenSigma st;
     saturation := saturation st;
     result := result st |}.

Definition setDenoiseLuma (v : JS.number) (st : State) : State :=
  {| file := file st;
     busy := busy st;
     error := error st;
     scale := scale st;
     width := width st;
     height := height st;
     denoiseLuma := v;
     denoiseColor := denoiseColor st;
     claheClip := claheClip st;
     sharpenAmount := sharpenAmount st;
     sharpenSigma := sharpenSigma st;
     saturation := saturation st;
     result := result st |}.

Definition setDenoiseColor (v : JS.number) (st : State) : State :=
  {| file := file st;
     busy := busy st;
     error := error st;
     scale := scale st;
     width := width st;
     height := height st;
     denoiseLuma := denoiseLuma st;
     denoiseColor := v;
     claheClip := claheClip st;
     sharpenAmount := sharpenAmount st;
     sharpenSigma := sharpenSigma st;
     saturation := saturation st;
     result := result st |}.

Definition setClaheClip (v : JS.number) (st : State) : State :=
  {| file := file st;
     busy := busy st;
     error := error st;
     scale := scale st;
     width := width st;
     height := height st;
     denoiseLuma := denoiseLuma st;
     denoiseColor := denoiseColor st;
     claheClip := v;
     sharpenAmount := sharpenAmount st;
     sharpenSigma := sharpenSigma st;
     saturation := saturation st;
     result := result st |}.

Definition setSharpenAmount (v : JS.number) (st : State) : State :=
  {| file := file st;
     busy := busy st;
     error := error st;
     scale := scale st;
     width := width st;
     height := height st;
     denoiseLuma := denoiseLuma st;
     denoiseColor := denoiseColor st;
     claheClip := claheClip st;
     sharpenAmount := v;
     sharpenSigma := sharpenSigma st;
     saturation := saturation st;
     result := result st |}.

Definition setSharpenSigma (v : JS.number) (st : State) : State :=
  {| file := file st;
     busy := busy st;
     error := error st;
     scale := scale st;
     width := width st;
     height := height st;
     denoiseLuma := denoiseLuma st;
     denoiseColor := denoiseColor st;
     claheClip := claheClip st;
     sharpenAmount := sharpenAmount st;
     sharpenSigma := v;
     saturation := saturation st;
     result := result st |}.

Definition setSaturation (v : JS.number) (st : State) : State :=
  {| file := file st;
     busy := busy st;
     error := error st;
     scale := scale st;
     width := width st;
     height := height st;
     denoiseLuma := denoiseLuma st;
     denoiseColor := denoiseColor st;
     claheClip := claheClip st;
     sharpenAmount := sharpenAmount st;
     sharpenSigma := sharpenSigma st;
     saturation := v;
     result := result st |}.

Definition setResult (v : option Result) (st : State) : State :=
  {| file := file st;
     busy := busy st;
     error := error st;
     scale := scale st;
     width := width st;
     height := height st;
     denoiseLuma := denoiseLuma st;
     denoiseColor := denoiseColor st;
     claheClip := claheClip st;
     sharpenAmount := sharpenAmount st;
     sharpenSigma := sharpenSigma st;
     saturation := saturation st;
     result := v |}.

Section Component.

(** The build-time variable [import.meta.env.VITE_API_BASE], [None] when
    it is not defined. *)
Variable VITE_API_BASE : option string.

(** [[
const API_BASE = (import.meta as any).env?.VITE_API_BASE || 'http://localhost:8000'
]] *)
Definition API_BASE : string :=
  match VITE_API_BASE with
  | Some base => if JS.truthy base then base else "http://localhost:8000"
  | None => "http://localhost:8000"
  end.

(** ** [onSubmit], up to the call of [fetch]

[[
    const form = new FormData()
    form.append('file', file)

    if (width || height) {
      if (width) form.append('width', String(parseInt(width)))
      if (height) form.append('height', String(parseInt(height)))
    } else {
      form.append('scale', String(scale))
    }

    form.append('denoise_luma', String(denoiseLuma))
    form.append('denoise_color', String(denoiseColor))
    form.append('clahe_clip', String(claheClip))
    form.append('sharpen_amount', String(sharpenAmount))
    form.append('sharpen_sigma', String(sharpenSigma))
    form.append('saturation', String(saturation))
]] *)
Definition String_ (x : JS.number) : FormValue := FormString (JS.NumberToString x).

Definition build_form (st : State) (f : File) : FormData :=
  let form : FormData := [] in
  let form := append form "file" (FormFile f) in
  let form :=
    if JS.truthy (width st) || JS.truthy (height st) then
      let form :=
        if JS.truthy (width st)
        then append form "width" (String_ (JS.parseInt (width st))) else form in
      let form :=
        if JS.truthy (height st)
        then append form "height" (String_ (JS.parseInt (height st))) else form in
      form
    else append form "scale" (String_ (scale st)) in
  let form := append form "denoise_luma" (String_ (denoiseLuma st)) in
  let form := append form "denoise_color" (String_ (denoiseColor st)) in
  let form := append form "clahe_clip" (String_ (claheClip st)) in
  let form := append form "sharpen_amount" (String_ (sharpenAmount st)) in
  let form := append form "sharpen_sigma" (String_ (sharpenSigma st)) in
  let form := append form "saturation" (String_ (saturation st)) in
  form.

(** [fetch(`${API_BASE}/api/enhance`, { method: 'POST', body: form })] *)
Definition enhance_request (st : State) (f : File) : Request :=
  {| req_method := "POST";
     req_url := API_BASE ++ "/api/enhance";
     req_body := build_form st f |}.

(** The handler runs in two parts, before and after [await fetch].  The
    first returns the state after its three [set] calls and the requests
    it has issued.

[[
    e.preventDefault()
    if (!file) return
    setBusy(true)
    setError(null)
    setResult(null)
]] *)
Definition onSubmit (st : State) : State * list Request :=
  match file st with
  | None => (st, [])
  | Some f =>
      (setResult None (setError None (setBusy true st)), [enhance_request st f])
  end.

End Component.

(** ** [onSubmit], once [fetch] has settled

[[
    try {
      const res = await fetch(...)
      if (!res.ok) throw new Error(`API error: ${res.status}`)
      const data = await res.json()
      setResult(data)
    } catch (err: any) {
      setError(err?.message || 'Unknown error')
    } finally {
      setBusy(false)
    }
]] *)

(** The [try] block: the parsed body, or the value thrown. *)
Definition try_block (o : FetchOutcome) : Thrown + option Result :=
  match o with
  | Rejected err => inl err
  | Resolved res =>
      if negb (ok res)
      then inl (Error ("API error: " ++ JS.NumberToString (JS.of_Z (status res))))
      else json res
  end.

(** [err?.message || 'Unknown error'] *)
Definition message_of (err : Thrown) : string :=
  match message err with
  | Some m => if JS.truthy m then m else "Unknown error"
  | None => "Unknown error"
  end.

Definition onSubmit_settled (o : FetchOutcome) (st : State) : State :=
  let st :=
    match try_block o with
    | inr data => setResult data st
    | inl err => setError (Some (message_of err)) st
    end in
  setBusy false st.

(** ** What the component renders *)

(** [const canSubmit = !!file && !busy] *)
Definition canSubmit (st : State) : bool :=
  match file st with Some _ => negb (busy st) | None => false end.

(** The submit button: [disabled={!canSubmit}]. *)
Definition submit_disabled (st : State) : bool := negb (canSubmit st).

(** The scale input: [disabled={!!(width || height)}]. *)
Definition scale_disabled (st : State) : bool :=
  JS.truthy (width st) || JS.truthy (height st).

(** The elements that depend on [error] and [result]. *)
Inductive Element :=
| ErrorText (msg : string)
| PreviewImage (src : string)
| DownloadLink (label filename : string) (href : Web.Blob).

(** [[
  function DownloadButton({ label, dataUrl, filename }) {
    if (!dataUrl) return null
    const blob = useMemo(() => dataUrlToBlob(dataUrl), [dataUrl])
    const href = useMemo(() => URL.createObjectURL(blob), [blob])
    return (<a href={href} download={filename}> ... Download {label} ... </a>)
  }
]]
    [None] when [dataUrlToBlob] throws; the object URL stands for its
    blob. *)
Definition DownloadButton (label : string) (dataUrl : option string)
    (filename : string) : option (list Element) :=
  match dataUrl with
  | None => Some []
  | Some url =>
      if negb (JS.truthy url) then Some []
      else match dataUrlToBlob url with
           | Some blob => Some [DownloadLink label filename blob]
           | None => None
           end
  end.

(** [{result.png && <img className="preview" src={result.png} />}] *)
Definition preview (r : Result) : list Element :=
  match png r with
  | Some src => if JS.truthy src then [PreviewImage src] else []
  | None => []
  end.

(** The card of a result: the preview, then the four buttons in the
    order PNG, JPG, WEBP, APNG. *)
Definition result_card (r : Result) : option (list Element) :=
  match DownloadButton "PNG" (png r) "image_enhanced.png",
        DownloadButton "JPG" (jpg r) "image_enhanced.jpg",
        DownloadButton "WEBP" (webp r) "image_enhanced.webp",
        DownloadButton "APNG" (apng r) "image_enhanced.apng" with
  | Some b1, Some b2, Some b3, Some b4 => Some (preview r ++ b1 ++ b2 ++ b3 ++ b4)
  | _, _, _, _ => None
  end.

(** [{error && <p style={{color: 'red'}}>{error}</p>}] *)
Definition error_text (st : State) : list Element :=
  match error st with
  | Some msg => if JS.truthy msg then [ErrorText msg] else []
  | None => []
  end.

(** The elements below the form; [None] when rendering throws. *)
Definition render (st : State) : option (list Element) :=
  match result st with
  | None => Some (error_text st)
  | Some r =>
      match result_card r with
      | Some card => Some (error_text st ++ card)
      | None => None
      end
  end.

(** ** Constraint validation of the form

    [<form onSubmit={onSubmit}>] has no [noValidate]: a press of the
    submit button makes the browser validate the inputs first, and the
    submit event, and with it [onSubmit], follows only when every input
    is valid.

    The width and the height input are

[[
  <input type="number" min="1" value={width} onChange={e => setWidth(e.target.value)} />
  <input type="number" min="1" value={height} onChange={e => setHeight(e.target.value)} />
]]
    so their text is the state's [width] and [height], and the state
    decides whether one of them is below its [min]. *)
Definition size_min : string := "1".

Definition below_min (st : State) : bool :=
  Web.suffers_underflow size_min (width st)
  || Web.suffers_underflow size_min (height st).

(** Whether a press of the submit button passes constraint validation,
    [valid] being the browser's finding for the other constraints. *)
Definition passes_validation (valid : bool) (st : State) : bool :=
  valid && negb (below_min st).

(** ** The component over time

    What happens to a mounted component: the user edits an input or
    presses the submit button, or a pending [fetch] settles.  An input
    event carries [e.target.value].

    A press carries what the browser finds for the constraints that the
    state does not decide: the [step] of the number inputs, the [min]
    and [max] of the seven inputs whose state is a parsed number and not
    their text, and text that is no number.  [valid] says that none of
    these is violated. *)
Inductive Event :=
| ChooseFile (chosen : option File)
| InputScale (value : string)
| InputWidth (value : string)
| InputHeight (value : string)
| InputDenoiseLuma (value : string)
| InputDenoiseColor (value : string)
| InputClaheClip (value : string)
| InputSharpenAmount (value : string)
| InputSharpenSigma (value : string)
| InputSaturation (value : string)
| PressSubmit (valid : bool)
| FetchSettles (o : FetchOutcome).

(** A mounted component: its state, the requests not yet settled and all
    the requests it has issued, oldest first. *)
Record Client := { ui : State; pending : list Request; sent : list Request }.

Definition mounted : Client := {| ui := initial; pending := []; sent := [] |}.

Definition with_ui (c : Client) (st : State) : Client :=
  {| ui := st; pending := pending c; sent := sent c |}.

Section Steps.

Variable VITE_API_BASE : option string.

(** One event, [None] when it cannot happen: a disabled control gives no
    event, and nothing settles when no request is pending.  A press that
    fails constraint validation changes nothing: no submit event follows
    and [onSubmit] does not run.  The [onChange] handlers are those of
    the inputs:

[[
  onChange={e => setFile(e.target.files?.[0] || null)}
  onChange={e => setScale(parseFloat(e.target.value))}
  onChange={e => setWidth(e.target.value)}
  onChange={e => setDenoiseLuma(parseInt(e.target.value))}
]] *)
Definition step (c : Client) (ev : Event) : option Client :=
  let st := ui c in
  match ev with
  | ChooseFile chosen => Some (with_ui c (setFile chosen st))
  | InputScale v =>
      if scale_disabled st then None
      else Some (with_ui c (setScale (JS.parseFloat v) st))
  | InputWidth v => Some (with_ui c (setWidth v st))
  | InputHeight v => Some (with_ui c (setHeight v st))
  | InputDenoiseLuma v => Some (with_ui c (setDenoiseLuma (JS.parseInt v) st))
  | InputDenoiseColor v => Some (with_ui c (setDenoiseColor (JS.parseInt v) st))
  | InputClaheClip v => Some (with_ui c (setClaheClip (JS.parseFloat v) st))
  | InputSharpenAmount v => Some (with_ui c (setSharpenAmount (JS.parseFloat v) st))
  | InputSharpenSigma v => Some (with_ui c (setSharpenSigma (JS.parseFloat v) st))
  | InputSaturation v => Some (with_ui c (setSaturation (JS.parseFloat v) st))
  | PressSubmit valid =>
      if submit_disabled st then None
      else if passes_validation valid st then
        let (st', reqs) := onSubmit VITE_API_BASE st in
        Some {| ui := st'; pending := pending c ++ reqs; sent := sent c ++ reqs |}
      else Some c
  | FetchSettles o =>
      match pending c with
      | [] => None
      | _ :: rest =>
          Some {| ui := onSubmit_settled o st; pending := rest; sent := sent c |}
      end
  end.

Fixpoint run (c : Client) (evs : list Event) : option Client :=
  match evs with
  | [] => Some c
  | ev :: rest =>
      match step c ev with
      | Some c' => run c' rest
      | None => None
      end
  end.

(** The clients a mounted component can become. *)
Inductive reachable : Client -> Prop :=
| reach_mounted : reachable mounted
| reach_step c ev c' : reachable c -> step c ev = Some c' -> reachable c'.

End Steps.

End App.

(* ================================================================== *)
(** * The service behind [POST /api/enhance]

    [scripts/enhance.py] and [backend/app.py] are not among the sources;
    what follows is written from the specification (sections 3, 4.2, 6
    and 7). *)
(* ================================================================== *)

Module Spec.

(** Modelled from the spec: the error taxonomy of section 7. *)
Inductive Error :=
| DecodeError
| InvalidGeometryError
| InvalidOptionError
| EncodeError.

(** Modelled from the spec: EnhancementOptions of section 3, whose
    definition is in the missing [scripts/enhance.py].  A float is its
    exact decimal value. *)
Record EnhancementOptions := {
  scale : Q;
  targetWidth : option Z;
  targetHeight : option Z;
  denoiseLuma : Z;
  denoiseColor : Z;
  claheClip : Q;
  sharpenAmount : Q;
  sharpenSigma : Q;
  saturation : Q
}.

(** Modelled from the spec: the documented defaults of section 3. *)
Definition default_options : EnhancementOptions :=
  {| scale := 2.0;
     targetWidth := None;
     targetHeight := None;
     denoiseLuma := 5;
     denoiseColor := 5;
     claheClip := 2.0;
     sharpenAmount := 0.6;
     sharpenSigma := 1.2;
     saturation := 1.05 |}.

(** Modelled from the spec: the field names section 3 gives to
    EnhancementOptions. *)
Definition option_names : list string :=
  ["scale"; "targetWidth"; "targetHeight"; "denoiseLuma"; "denoiseColor";
   "claheClip"; "sharpenAmount"; "sharpenSigma"; "saturation"]%string.

(** ** Geometry Planner (section 4.2) *)

(** Modelled from the spec: [round], which the specification uses and
    does not define; the ways a half may go. *)
Inductive Ties := TiesToEven | TiesAwayFromZero | TiesUp.

(** Modelled from the spec: [round] to the nearest integer, a half going
    as [t] says. *)
Definition round (t : Ties) (q : Q) : Z :=
  let f := Qfloor q in
  match Qcompare (q - inject_Z f) (1 # 2) with
  | Lt => f
  | Gt => f + 1
  | Eq =>
      match t with
      | TiesToEven => if Z.even f then f else f + 1
      | TiesAwayFromZero => if 0 <=? f then f + 1 else f
      | TiesUp => f + 1
      end
  end.

(** Modelled from the spec: the target size of the Geometry Planner,
    whose code is in the missing [scripts/enhance.py]. *)
Definition target (t : Ties) (sourceW sourceH : Z) (o : EnhancementOptions) : Z * Z :=
  match targetWidth o, targetHeight o with
  | Some w, Some h => (w, h)
  | Some w, None => (w, round t (inject_Z w * inject_Z sourceH / inject_Z sourceW))
  | None, Some h => (round t (inject_Z h * inject_Z sourceW / inject_Z sourceH), h)
  | None, None =>
      (round t (inject_Z sourceW * scale o), round t (inject_Z sourceH * scale o))
  end.

(** Modelled from the spec: [plan], which fails when a target side is
    below 1. *)
Definition plan (t : Ties) (sourceW sourceH : Z) (o : EnhancementOptions)
  : Error + Z * Z :=
  let (w, h) := target t sourceW sourceH o in
  if (w <? 1) || (h <? 1) then inl InvalidGeometryError else inr (w, h).

(** ** Option validation (sections 3 and 7) *)

(** Modelled from the spec: a range [[lo, hi]] of section 3. *)
Definition in_range (lo hi : Q) (x : Q) : bool := Qle_bool lo x && Qle_bool x hi.

(** Modelled from the spec: an optional positive int of section 3. *)
Definition positive_if_set (v : option Z) : bool :=
  match v with Some n => 1 <=? n | None => true end.

(** Modelled from the spec: the documented range of every option.  The
    scale is looked at only when no target side is set, since it is
    ignored entirely otherwise. *)
Definition in_documented_ranges (o : EnhancementOptions) : bool :=
  (match targetWidth o, targetHeight o with
   | None, None => negb (Qle_bool (scale o) 0)
   | _, _ => true
   end)
  && positive_if_set (targetWidth o)
  && positive_if_set (targetHeight o)
  && ((0 <=? denoiseLuma o) && (denoiseLuma o <=? 20))
  && ((0 <=? denoiseColor o) && (denoiseColor o <=? 20))
  && in_range 0.5 5.0 (claheClip o)
  && in_range 0 2.0 (sharpenAmount o)
  && in_range 0.1 3.0 (sharpenSigma o)
  && in_range 0 2.0 (saturation o).

(** Modelled from the spec: InvalidOptionError for any option outside
    its documented range. *)
Definition validate (o : EnhancementOptions) : option Error :=
  if in_documented_ranges o then None else Some InvalidOptionError.

(** ** The form fields (section 6) *)

(** Modelled from the spec: a string-encoded integer of section 6, an
    optional sign and digits. *)
Definition decode_int (s : string) : option Z :=
  let (neg, u) := JS.take_sign s in
  let (ds, rest) := Str.span Str.is_digit u in
  if Str.is_empty ds || negb (Str.is_empty rest) then None
  else
    let n := Str.digits_value 10 JS.decimal_digit ds 0 in
    Some (if neg then - n else n).

(** Modelled from the spec: a string-encoded number of section 6, an
    optional sign, digits with an optional fraction, an optional
    exponent part, and nothing else. *)
Definition decode_decimal (s : string) : option Q :=
  let (neg, u) := JS.take_sign s in
  let (ip, r1) := Str.span Str.is_digit u in
  let (fp, r2) :=
    match r1 with
    | String "." r => Str.span Str.is_digit r
    | _ => (EmptyString, r1)
    end in
  let (ex, rest) := JS.exponent_part_of r2 in
  if (Str.is_empty ip && Str.is_empty fp) || negb (Str.is_empty rest) then None
  else
    let m := Str.digits_value 10 JS.decimal_digit (ip ++ fp) 0 in
    let v := (inject_Z m * JS.pow10 (ex - Z.of_nat (String.length fp)))%Q in
    Some (if neg then (- v)%Q else v).

(** Modelled from the spec: the string sent under a name, if any. *)
Definition field (name : string) (form : App.FormData) : option string :=
  match App.get form name with
  | Some (App.FormString s) => Some s
  | _ => None
  end.

(** Modelled from the spec: the raw image bytes of section 6, those of
    the first file entry named [file]. *)
Fixpoint upload (form : App.FormData) : list byte :=
  match form with
  | [] => []
  | (n, v) :: rest =>
      match v with
      | App.FormFile f => if String.eqb n "file" then App.file_bytes f else upload rest
      | App.FormString _ => upload rest
      end
  end.

(** Modelled from the spec: a field that may be left out gives its
    default, its decoded value, or InvalidOptionError when it is not a
    number. *)
Definition optional {A} (decode : string -> option A) (name : string)
    (default : A) (form : App.FormData) : Error + A :=
  match field name form with
  | None => inr default
  | Some s =>
      match decode s with
      | Some v => inr v
      | None => inl InvalidOptionError
      end
  end.

(** Modelled from the spec: the first failure is the result (section 7). *)
Definition bind {A B} (x : Error + A) (k : A -> Error + B) : Error + B :=
  match x with
  | inl e => inl e
  | inr a => k a
  end.

Notation "x <- e ;; k" := (bind e (fun x => k))
  (at level 61, e at next level, right associativity).

(** Modelled from the spec: the options of a request, the multipart
    form fields exactly as enumerated in EnhancementOptions of section 3
    (section 6), that is under the names of [option_names]: [scale],
    [targetWidth], [targetHeight], [denoiseLuma], [denoiseColor],
    [claheClip], [sharpenAmount], [sharpenSigma], [saturation]. *)
Definition decode_form (form : App.FormData) : Error + EnhancementOptions :=
  let d := default_options in
  sc <- optional decode_decimal "scale" (scale d) form ;;
  w <- optional (fun s => option_map Some (decode_int s)) "targetWidth" None form ;;
  h <- optional (fun s => option_map Some (decode_int s)) "targetHeight" None form ;;
  dl <- optional decode_int "denoiseLuma" (denoiseLuma d) form ;;
  dc <- optional decode_int "denoiseColor" (denoiseColor d) form ;;
  cc <- optional decode_decimal "claheClip" (claheClip d) form ;;
  sa <- optional decode_decimal "sharpenAmount" (sharpenAmount d) form ;;
  ss <- optional decode_decimal "sharpenSigma" (sharpenSigma d) form ;;
  st <- optional decode_decimal "saturation" (saturation d) form ;;
  inr {| scale := sc; targetWidth := w; targetHeight := h;
         denoiseLuma := dl; denoiseColor := dc; claheClip := cc;
         sharpenAmount := sa; sharpenSigma := ss; saturation := st |}.

(** ** The order of work (sections 2, 4.3 and 7) *)

(** Modelled from the spec: the seven stages of section 4.3, by name
    only; what they compute is not modelled. *)
Inductive Stage :=
| Denoise
| WhiteBalance
| LocalContrast
| ContrastStretch
| Resize
| Sharpen
| Saturation.

(** Modelled from the spec: the fixed order of the stages. *)
Definition pipeline : list Stage :=
  [Denoise; WhiteBalance; LocalContrast; ContrastStretch; Resize; Sharpen; Saturation].

(** Modelled from the spec: what a request comes to before encoding,
    the stages that ran, and the target size or the error raised. *)
Record Served := { stages_run : list Stage; outcome : Error + Z * Z }.

(** Modelled from the spec: a request that fails before the pipeline. *)
Definition rejected (e : Error) : Served := {| stages_run := []; outcome := inl e |}.

Section Service.

(** Modelled from the spec: the Decoder of section 4.1, as far as the
    planner needs it, gives the width and height of the decoded image,
    or DecodeError. *)
Variable decoder : list byte -> Error + Z * Z.

(** How [round] treats a half. *)
Variable ties : Ties.

(** Modelled from the spec: [enhance] up to the Encoder.  The options
    are checked, the image is decoded, the target size is planned, and
    only then the stages run; the first failure ends the request. *)
Definition enhance (input : list byte) (o : EnhancementOptions) : Served :=
  match validate o with
  | Some e => rejected e
  | None =>
      match decoder input with
      | inl e => rejected e
      | inr (sourceW, sourceH) =>
          match plan ties sourceW sourceH o with
          | inl e => rejected e
          | inr size => {| stages_run := pipeline; outcome := inr size |}
          end
      end
  end.

(** Modelled from the spec: the Transport Adapter for a multipart form.
    The input bytes are those of the [file] entry, none when there is no
    such entry; the other fields are decoded first. *)
Definition serve (form : App.FormData) : Served :=
  match decode_form form with
  | inl e => rejected e
  | inr o => enhance (upload form) o
  end.

End Service.

End Spec.

(* ================================================================== *)
(** * Notions used in the statements *)
(* ================================================================== *)

(** The entries about the size, as [onSubmit] chooses them. *)
Definition geometry_fields (st : App.State) : App.FormData :=
  if JS.truthy (App.width st) || JS.truthy (App.height st) then
    (if JS.truthy (App.width st)
     then [("width"%string, App.String_ (JS.parseInt (App.width st)))] else [])
    ++ (if JS.truthy (App.height st)
        then [("height"%string, App.String_ (JS.parseInt (App.height st)))] else [])
  else [("scale"%string, App.String_ (App.scale st))].

(** The entries of the six other parameters. *)
Definition parameter_fields (st : App.State) : App.FormData :=
  [ ("denoise_luma", App.String_ (App.denoiseLuma st));
    ("denoise_color", App.String_ (App.denoiseColor st));
    ("clahe_clip", App.String_ (App.claheClip st));
    ("sharpen_amount", App.String_ (App.sharpenAmount st));
    ("sharpen_sigma", App.String_ (App.sharpenSigma st));
    ("saturation", App.String_ (App.saturation st)) ]%string.

(** A file and a state to run the component on. *)
Definition photo : App.File :=
  {| App.file_name := "photo.png";
     App.file_type := "image/png";
     App.file_bytes := [x89; x50; x4e; x47] |}.

Definition ready : App.State := App.setFile (Some photo) App.initial.

(** The client once [photo] is chosen and the button pressed. *)
Definition enhancing : App.Client :=
  {| App.ui := fst (App.onSubmit None ready);
     App.pending := [App.enhance_request None ready photo];
     App.sent := [App.enhance_request None ready photo] |}.

(** A request carries a file under [file]. *)
Definition carries_file (req : App.Request) : Prop :=
  exists f, App.get (App.req_body req) "file" = Some (App.FormFile f).

(** The decimal numerals of the integers below [n] are what [String]
    gives for them. *)
Definition numerals_agree (n : nat) : bool :=
  forallb
    (fun k => String.eqb (JS.NumberToString (JS.of_Z (Z.of_nat k)))
                         (Str.of_nonneg (Z.of_nat k)))
    (seq 0 n).

(** What holds of every client a mounted component can become. *)
Definition in_step (c : App.Client) : Prop :=
  (List.length (App.pending c) <= 1)%nat
  /\ (App.busy (App.ui c) = true <-> App.pending c <> [])
  /\ Forall carries_file (App.sent c).

(** The data URL of [bytes] under a MIME type: what section 6 calls a
    self-describing embedded-data string. *)
Definition data_url (mime : string) (bytes : list byte) : string :=
  ("data:" ++ mime ++ ";base64," ++ Web.base64 bytes)%string.

Definition is_comma (c : ascii) : bool := Ascii.eqb c ",".

(** Is every sextet below 64 accepted by [p]? *)
Definition every_sextet (p : N -> bool) : bool :=
  forallb p (List.map N.of_nat (seq 0 64)).

(** A character of the base64 alphabet: neither white space, [=] nor a
    comma, and read back as the sextet it stands for. *)
Definition alphabet_char (n : N) : bool :=
  let c := Web.char_of_sextet n in
  negb (Web.is_ascii_whitespace c)
  && negb (Ascii.eqb c "=")
  && negb (is_comma c)
  && match Web.sextet_of_char c with
     | Some k => N.eqb k n
     | None => false
     end.

(** The four formats of a result, with the key, label and file name the
    component gives each. *)
Inductive Format := PNG | JPG | WEBP | APNG.

Definition value_of (fmt : Format) (r : App.Result) : option string :=
  match fmt with
  | PNG => App.png r
  | JPG => App.jpg r
  | WEBP => App.webp r
  | APNG => App.apng r
  end.

Definition label_of (fmt : Format) : string :=
  match fmt with
  | PNG => "PNG"
  | JPG => "JPG"
  | WEBP => "WEBP"
  | APNG => "APNG"
  end.

Definition filename_of (fmt : Format) : string :=
  match fmt with
  | PNG => "image_enhanced.png"
  | JPG => "image_enhanced.jpg"
  | WEBP => "image_enhanced.webp"
  | APNG => "image_enhanced.apng"
  end.

(** A value of the response as section 6 describes it: the data URL of
    some bytes under a MIME type, which holds no comma. *)
Definition embedded (v : string) : Prop :=
  exists mime bytes, v = data_url mime bytes /\ Str.existsb is_comma mime = false.

(** A response whose present values are all of that form. *)
Definition api_response (r : App.Result) : Prop :=
  forall fmt v, value_of fmt r = Some v -> embedded v.

(** A response with only the JPG and WEBP keys. *)
Definition partial_response : App.Result :=
  {| App.png := None;
     App.jpg := Some (data_url "image/jpeg" [xff; xd8; xff]);
     App.webp := Some (data_url "image/webp" [x52; x49; x46; x46]);
     App.apng := None |}.

(** The options of a planner example: a target size and a scale, the
    other options at their defaults. *)
Definition sized (w h : option Z) (s : Q) : Spec.EnhancementOptions :=
  {| Spec.scale := s;
     Spec.targetWidth := w;
     Spec.targetHeight := h;
     Spec.denoiseLuma := Spec.denoiseLuma Spec.default_options;
     Spec.denoiseColor := Spec.denoiseColor Spec.default_options;
     Spec.claheClip := Spec.claheClip Spec.default_options;
     Spec.sharpenAmount := Spec.sharpenAmount Spec.default_options;
     Spec.sharpenSigma := Spec.sharpenSigma Spec.default_options;
     Spec.saturation := Spec.saturation Spec.default_options |}.

(** A decoder for the examples: every input is a 100 x 50 image. *)
Definition decoder_100x50 (input : list byte) : Spec.Error + Z * Z := inr (100, 50).

(** An option outside the range that section 3 documents for it; the
    scale counts only when no target side is set, since it is ignored
    entirely otherwise. *)
Definition outside_Z (lo hi x : Z) : Prop := x < lo \/ hi < x.
Definition outside_Q (lo hi x : Q) : Prop := (x < lo)%Q \/ (hi < x)%Q.

Definition out_of_range (o : Spec.EnhancementOptions) : Prop :=
  (Spec.targetWidth o = None /\ Spec.targetHeight o = None
   /\ (Spec.scale o <= 0)%Q)
  \/ (exists w, Spec.targetWidth o = Some w /\ w < 1)
  \/ (exists h, Spec.targetHeight o = Some h /\ h < 1)
  \/ outside_Z 0 20 (Spec.denoiseLuma o)
  \/ outside_Z 0 20 (Spec.denoiseColor o)
  \/ outside_Q 0.5 5.0 (Spec.claheClip o)
  \/ outside_Q 0 2.0 (Spec.sharpenAmount o)
  \/ outside_Q 0.1 3.0 (Spec.sharpenSigma o)
  \/ outside_Q 0 2.0 (Spec.saturation o).

(** A request that ends with the error [e] before any stage of the
    pipeline has run. *)
Definition rejected_unprocessed (s : Spec.Served) (e : Spec.Error) : Prop :=
  Spec.stages_run s = [] /\ Spec.outcome s = inl e.

(** Linear arithmetic with division and remainder by constants. *)
Ltac div_lia := zify; Z.to_euclidean_division_equations; lia.

(** The base64 characters of some bytes without the [=] at the end. *)
Definition base64_unpadded (l : list byte) : string :=
  string_of_list_ascii (List.map Web.char_of_sextet (Web.sextets_of_bytes l)).

(** The numeric inputs: the event of each, the form field it feeds and
    the parser of its [onChange]. *)
Definition numeric_inputs
  : list ((string -> App.Event) * string * (string -> JS.number)) :=
  [ (App.InputScale, "scale", JS.parseFloat);
    (App.InputDenoiseLuma, "denoise_luma", JS.parseInt);
    (App.InputDenoiseColor, "denoise_color", JS.parseInt);
    (App.InputClaheClip, "clahe_clip", JS.parseFloat);
    (App.InputSharpenAmount, "sharpen_amount", JS.parseFloat);
    (App.InputSharpenSigma, "sharpen_sigma", JS.parseFloat);
    (App.InputSaturation, "saturation", JS.parseFloat) ]%string.

(** The decimal numeral of [k] is not empty and comes back from
    [String(parseInt(...))] as it is. *)
Definition integer_survives_at (k : nat) : bool :=
  let s := Str.of_nonneg (Z.of_nat k) in
  JS.truthy s && String.eqb (JS.NumberToString (JS.parseInt s)) s.

(** The text of the number [k / 100]. *)
Definition hundredths (k : Z) : string := JS.NumberToString (JS.of_Q (k # 100)).

(** The text of [k / 100] comes back from [String(parseFloat(...))] as
    it is. *)
Definition hundredth_survives_at (k : nat) : bool :=
  let s := hundredths (Z.of_nat k) in
  String.eqb (JS.NumberToString (JS.parseFloat s)) s.

(** What [parseInt] makes of a string of decimal digits. *)
Definition decimal_number (ds : string) : JS.number :=
  if Str.is_empty ds then nan
  else
    let n := Str.digits_value 10 JS.decimal_digit ds 0 in
    if n =? 0 then zero else JS.of_Z n.

(** The string does not go on with the [x] of a hexadecimal prefix. *)
Definition no_hex_mark (s : string) : bool :=
  match s with
  | String c _ => negb (Ascii.eqb c "x") && negb (Ascii.eqb c "X")
  | EmptyString => true
  end.

(** The tests on a character that is known. *)
Ltac decide_chars :=
  repeat match goal with
    | |- context [JS.is_white_space (Ascii ?a ?b ?c ?d ?e ?f ?g ?h)] =>
        let v := eval vm_compute in (JS.is_white_space (Ascii a b c d e f g h)) in
        change (JS.is_white_space (Ascii a b c d e f g h)) with v
    | |- context [Str.is_digit (Ascii ?a ?b ?c ?d ?e ?f ?g ?h)] =>
        let v := eval vm_compute in (Str.is_digit (Ascii a b c d e f g h)) in
        change (Str.is_digit (Ascii a b c d e f g h)) with v
    end.

(** What the component keeps of its error and its result. *)
Definition settled_state (st : App.State) : Prop :=
  (App.busy st = true -> App.error st = None /\ App.result st = None)
  /\ (App.error st = None \/ App.result st = None)
  /\ (forall msg, App.error st = Some msg -> JS.truthy msg = true).

(** An event whose response body, if it brings one, is a response of
    the API. *)
Definition well_formed_event (ev : App.Event) : Prop :=
  match ev with
  | App.FetchSettles (App.Resolved res) =>
      match App.json res with
      | inr (Some r) => api_response r
      | _ => True
      end
  | _ => True
  end.

(** The result a state holds, if any, is a response of the API. *)
Definition holds_api_response (st : App.State) : Prop :=
  forall r, App.result st = Some r -> api_response r.

(** What the user has entered: the file and the nine parameters. *)
Definition inputs (st : App.State) :=
  (App.file st, App.scale st, App.width st, App.height st,
   (App.denoiseLuma st, App.denoiseColor st, App.claheClip st),
   (App.sharpenAmount st, App.sharpenSigma st, App.saturation st)).

(** What the component records of its request. *)
Definition progress (st : App.State) :=
  (App.busy st, App.error st, App.result st).

Definition is_press (ev : App.Event) : bool :=
  match ev with App.PressSubmit _ => true | _ => false end.

Definition is_settle (ev : App.Event) : bool :=
  match ev with App.FetchSettles _ => true | _ => false end.

(** A press that passes constraint validation: the submit event follows
    it and [onSubmit] runs. *)
Definition submits (st : App.State) (ev : App.Event) : bool :=
  match ev with
  | App.PressSubmit valid => App.passes_validation valid st
  | _ => false
  end.

(** The submit events in a run of [evs] from [c]. *)
Fixpoint submissions (env : option string) (c : App.Client) (evs : list App.Event) : nat :=
  match evs with
  | [] => 0
  | ev :: rest =>
      match App.step env c ev with
      | Some c' => (if submits (App.ui c) ev then 1 else 0) + submissions env c' rest
      | None => 0
      end
  end.

(** The settled fetches among some events. *)
Definition settles (evs : list App.Event) : nat := List.length (filter is_settle evs).

(** A press with a width of 0, which the browser stops, and one with a
    width of 300. *)
Definition blocked_then_sent : list App.Event :=
  [ App.ChooseFile (Some photo);
    App.InputWidth "0";
    App.PressSubmit true;
    App.InputWidth "300";
    App.PressSubmit true ].

(** The client after a response that carries [partial_response]. *)
Definition shown_partial : list App.Event :=
  [ App.ChooseFile (Some photo);
    App.PressSubmit true;
    App.FetchSettles
      (App.Resolved {| App.status := 200; App.json := inr (Some partial_response) |}) ].

(* ================================================================== *)
(** * Properties *)
(* ================================================================== *)

(** The conversions of numbers are computed on closed values only. *)
Arguments JS.NumberToString : simpl never.
Arguments JS.parseInt : simpl never.
Arguments JS.parseFloat : simpl never.
Arguments JS.of_Z : simpl never.

(** ** The built-ins on known values *)

Example String_of_numbers :
  List.map JS.NumberToString
    [2; 0.6; 1.05; 1.2; (-1); 0.1 + 0.2; 1e21; 123456789012345680000;
     1e-7; 0.000001; neg_zero; nan; infinity; 5e-324;
     1.7976931348623157e308]%float
  = ["2"; "0.6"; "1.05"; "1.2"; "-1"; "0.30000000000000004"; "1e+21";
     "123456789012345680000"; "1e-7"; "0.000001"; "0"; "NaN"; "Infinity";
     "5e-324"; "1.7976931348623157e+308"]%string.
Proof. vm_compute. reflexivity. Qed.

Example parseInt_of_strings :
  List.map (fun s => JS.NumberToString (JS.parseInt s))
    ["300"; "0"; "-0"; "  42px"; "1.9"; "1e3"; "0x1F"; ""; "abc";
     "9007199254740993"]%string
  = ["300"; "0"; "0"; "42"; "1"; "1"; "31"; "NaN"; "NaN";
     "9007199254740992"]%string.
Proof. vm_compute. reflexivity. Qed.

Example parseFloat_of_strings :
  List.map (fun s => JS.NumberToString (JS.parseFloat s))
    ["2.5"; "-1"; ".5"; "1."; "1e3"; "3.14abc"; ""; "."; "-Infinity";
     "1e400"; "0x1F"]%string
  = ["2.5"; "-1"; "0.5"; "1"; "1000"; "3.14"; "NaN"; "NaN"; "-Infinity";
     "Infinity"; "0"]%string.
Proof. vm_compute. reflexivity. Qed.

Example atob_of_strings :
  List.map Web.atob ["aGk="; "aGk"; " a G k = "; "aGk=="; "a"; "a,b"; "undefined"; ""]%string
  = [Some "hi"; Some "hi"; Some "hi"; None; None; None; None; Some ""]%string.
Proof. vm_compute. reflexivity. Qed.

Example match_of_headers :
  List.map JS.match_data_base64
    ["data:image/png;base64"; "data:a;base64;base64"; "data:;base64";
     "data:image/png"; "xdata:a;base64x"]%string
  = [Some "image/png"; Some "a;base64"; Some ""; None; Some "a"]%string.
Proof. vm_compute. reflexivity. Qed.

(** ** Strings *)

Lemma truthy_iff (s : string) : JS.truthy s = true <-> s <> EmptyString.
Proof.
  destruct s; unfold JS.truthy; simpl; split; intros H; congruence.
Qed.

Lemma not_truthy_iff (s : string) : JS.truthy s = false <-> s = EmptyString.
Proof.
  destruct s; unfold JS.truthy; simpl; split; intros H; congruence.
Qed.

(** ** The request of a submission *)

Lemma build_form_entries (st : App.State) (f : App.File) :
  App.build_form st f
  = ("file"%string, App.FormFile f) :: geometry_fields st ++ parameter_fields st.
Proof.
  unfold App.build_form, geometry_fields, parameter_fields, App.append.
  destruct (JS.truthy (App.width st)), (JS.truthy (App.height st)); reflexivity.
Qed.

Lemma onSubmit_requests (env : option string) (st : App.State) (req : App.Request) :
  In req (snd (App.onSubmit env st)) ->
  exists f, App.file st = Some f /\ req = App.enhance_request env st f.
Proof.
  unfold App.onSubmit.
  destruct (App.file st) as [f |]; simpl.
  - intros [H | []]. exists f. split; [reflexivity | now symmetry].
  - intros [].
Qed.

Lemma get_scale_geometry (st : App.State) (rest : App.FormData) :
  App.get (geometry_fields st ++ rest) "scale"
  = if JS.truthy (App.width st) || JS.truthy (App.height st)
    then App.get rest "scale"
    else Some (App.String_ (App.scale st)).
Proof.
  unfold geometry_fields.
  destruct (JS.truthy (App.width st)), (JS.truthy (App.height st)); reflexivity.
Qed.

(** With a file chosen, [onSubmit] issues the one request. *)
Lemma onSubmit_with_file (env : option string) (st : App.State) (f : App.File) :
  App.file st = Some f ->
  snd (App.onSubmit env st) = [App.enhance_request env st f].
Proof.
  intros Hf. unfold App.onSubmit. now rewrite Hf.
Qed.

(** C1. Whenever a submission sends a request: if the width or the
    height field is not empty, the form has no [scale] entry at all, and
    if both are empty it has the entry [scale] with [String(scale)].
    The scale input is disabled in exactly the first case. *)
Theorem scale_sent_iff_no_target_size
    (env : option string) (st : App.State) (req : App.Request) :
  In req (snd (App.onSubmit env st)) ->
  (App.width st <> EmptyString \/ App.height st <> EmptyString ->
     App.get (App.req_body req) "scale" = None
     /\ ~ In "scale"%string (App.names (App.req_body req))
     /\ App.scale_disabled st = true)
  /\ (App.width st = EmptyString /\ App.height st = EmptyString ->
     App.get (App.req_body req) "scale"
       = Some (App.FormString (JS.NumberToString (App.scale st)))
     /\ App.scale_disabled st = false).
Proof.
  intros Hreq.
  destruct (onSubmit_requests env st req Hreq) as (f & _ & ->).
  unfold App.enhance_request, App.scale_disabled; simpl App.req_body.
  rewrite build_form_entries.
  split.
  - intros Hset.
    assert (Ht : JS.truthy (App.width st) || JS.truthy (App.height st) = true).
    { apply orb_true_iff.
      destruct Hset as [H | H]; [left | right]; now apply truthy_iff. }
    repeat split.
    + simpl App.get. rewrite get_scale_geometry, Ht. reflexivity.
    + unfold App.names, geometry_fields. rewrite Ht.
      destruct (JS.truthy (App.width st)), (JS.truthy (App.height st));
        simpl; intros H; repeat (destruct H as [H | H]; [discriminate H |]);
        exact H.
    + exact Ht.
  - intros [Hw Hh].
    simpl App.get. rewrite get_scale_geometry, Hw, Hh.
    split; reflexivity.
Qed.

Lemma scale_sent_iff_no_target_size_witness :
  In (App.enhance_request None (App.setWidth "300" ready) photo)
     (snd (App.onSubmit None (App.setWidth "300" ready)))
  /\ App.get (App.req_body (App.enhance_request None (App.setWidth "300" ready) photo))
       "scale" = None.
Proof.
  assert (H : In (App.enhance_request None (App.setWidth "300" ready) photo)
                 (snd (App.onSubmit None (App.setWidth "300" ready))))
    by (left; reflexivity).
  split; [exact H |].
  apply (scale_sent_iff_no_target_size None _ _ H).
  left. discriminate.
Defined.

(** C2, as stated, fails on the field names: the request built from the
    initial state with a file carries [denoise_luma] and the other
    parameters in snake case; [denoise_luma] is not a name of section 3,
    and nothing is sent under the name [denoiseLuma] of section 3.  And a
    submission without a file sends no request. *)
Lemma request_names_are_not_option_names :
  App.names (App.req_body (App.enhance_request None ready photo))
  = ["file"; "scale"; "denoise_luma"; "denoise_color"; "clahe_clip";
     "sharpen_amount"; "sharpen_sigma"; "saturation"]%string
  /\ existsb (String.eqb "denoise_luma") Spec.option_names = false
  /\ App.get (App.req_body (App.enhance_request None ready photo)) "denoiseLuma" = None
  /\ snd (App.onSubmit None App.initial) = [].
Proof.
  repeat split; vm_compute; reflexivity.
Qed.

(** C2, amended. A submission with a chosen file issues exactly one
    request: a POST to API_BASE followed by [/api/enhance] whose form
    holds, in this order, the chosen file under [file], then [scale], or
    [width] and/or [height] for those that are not empty, then
    [denoise_luma], [denoise_color], [clahe_clip], [sharpen_amount],
    [sharpen_sigma] and [saturation], each value the [String(...)] of
    a number.  A submission without a file issues no request and leaves
    the state as it is. *)
Theorem submission_issues_one_post (env : option string) (st : App.State) :
  (forall f,
      App.file st = Some f ->
      snd (App.onSubmit env st)
      = [ {| App.req_method := "POST";
             App.req_url := App.API_BASE env ++ "/api/enhance";
             App.req_body :=
               ("file"%string, App.FormFile f)
                 :: geometry_fields st ++ parameter_fields st |} ])
  /\ (App.file st = None -> App.onSubmit env st = (st, [])).
Proof.
  split.
  - intros f Hf. rewrite (onSubmit_with_file env st f Hf).
    unfold App.enhance_request. now rewrite build_form_entries.
  - intros Hf. unfold App.onSubmit. now rewrite Hf.
Qed.

Lemma submission_issues_one_post_witness :
  App.file ready = Some photo
  /\ App.file (App.setWidth "300" App.initial) = None
  /\ App.onSubmit None (App.setWidth "300" App.initial)
     = (App.setWidth "300" App.initial, [])
  /\ snd (App.onSubmit None ready)
     = [ {| App.req_method := "POST";
            App.req_url := "http://localhost:8000/api/enhance";
            App.req_body :=
              [ ("file", App.FormFile photo);
                ("scale", App.FormString "2");
                ("denoise_luma", App.FormString "5");
                ("denoise_color", App.FormString "5");
                ("clahe_clip", App.FormString "2");
                ("sharpen_amount", App.FormString "0.6");
                ("sharpen_sigma", App.FormString "1.2");
                ("saturation", App.FormString "1.05") ]%string |} ].
Proof.
  split; [reflexivity |]. split; [reflexivity |]. split.
  - exact (proj2 (submission_issues_one_post None (App.setWidth "300" App.initial))
             eq_refl).
  - rewrite (proj1 (submission_issues_one_post None ready) photo eq_refl).
    vm_compute. reflexivity.
Defined.

(** C7. The arguments of the [useState] calls are the documented
    defaults of EnhancementOptions: each number is the Number written by
    the default's decimal (2.0, 5, 5, 2.0, 0.6, 1.2, 1.05), and the width
    and height fields start empty as the target sides start unset. *)
Theorem initial_values_are_documented_defaults :
  App.scale App.initial = JS.of_Q (Spec.scale Spec.default_options)
  /\ App.denoiseLuma App.initial = JS.of_Z (Spec.denoiseLuma Spec.default_options)
  /\ App.denoiseColor App.initial = JS.of_Z (Spec.denoiseColor Spec.default_options)
  /\ App.claheClip App.initial = JS.of_Q (Spec.claheClip Spec.default_options)
  /\ App.sharpenAmount App.initial = JS.of_Q (Spec.sharpenAmount Spec.default_options)
  /\ App.sharpenSigma App.initial = JS.of_Q (Spec.sharpenSigma Spec.default_options)
  /\ App.saturation App.initial = JS.of_Q (Spec.saturation Spec.default_options)
  /\ (App.width App.initial = EmptyString
      /\ Spec.targetWidth Spec.default_options = None)
  /\ (App.height App.initial = EmptyString
      /\ Spec.targetHeight Spec.default_options = None).
Proof.
  repeat split; vm_compute; reflexivity.
Qed.

(** ** A settled request *)

Lemma message_of_truthy (err : App.Thrown) : JS.truthy (App.message_of err) = true.
Proof.
  unfold App.message_of.
  destruct (App.message err) as [m |]; [| reflexivity].
  destruct (JS.truthy m) eqn:E; [exact E | reflexivity].
Qed.

Lemma render_error_only (st : App.State) (msg : string) :
  App.error st = Some msg -> App.result st = None -> JS.truthy msg = true ->
  App.render st = Some [App.ErrorText msg].
Proof.
  intros He Hr Ht. unfold App.render, App.error_text.
  now rewrite Hr, He, Ht.
Qed.

(** [String(status)] is the decimal numeral of a status below 1000. *)
Lemma status_numeral (n : Z) :
  0 <= n < 1000 -> JS.NumberToString (JS.of_Z n) = Str.of_nonneg n.
Proof.
  intros Hn.
  assert (Hall : numerals_agree 1000 = true) by (vm_compute; reflexivity).
  unfold numerals_agree in Hall. rewrite forallb_forall in Hall.
  specialize (Hall (Z.to_nat n)).
  rewrite Z2Nat.id in Hall by lia.
  apply String.eqb_eq, Hall, in_seq. lia.
Qed.

(** C6, as stated, fails in two places.  When [fetch] itself throws
    there is no status: the message shown is the one thrown, here without
    a single digit.  And a response that is ok but whose body is not JSON
    sets the error and leaves the result null. *)
Lemma failure_without_status :
  (let st := App.onSubmit_settled (App.Rejected (App.Error "Failed to fetch"))
               (fst (App.onSubmit None ready)) in
   App.render st = Some [App.ErrorText "Failed to fetch"]
   /\ Str.existsb Str.is_digit "Failed to fetch" = false)
  /\ (let res := {| App.status := 200;
                    App.json := inl (App.Error "Unexpected end of JSON input") |} in
      let st := App.onSubmit_settled (App.Resolved res) (fst (App.onSubmit None ready)) in
      App.ok res = true
      /\ App.error st = Some "Unexpected end of JSON input"%string
      /\ App.result st = None).
Proof.
  repeat split.
Qed.

(** C6, amended. After a request has settled [busy] is false, and:
    - a response whose status is not ok shows the message [API error: ]
      followed by the status, and the result stays null;
    - when [fetch] throws, or the body of an ok response is not JSON,
      the message of the thrown value is shown, or [Unknown error] when
      it has none, and the result stays null;
    - an ok response whose body parses leaves the error null and makes
      the result the parsed body. *)
Theorem settled_request_outcome
    (env : option string) (st : App.State) (f : App.File) (o : App.FetchOutcome) :
  App.file st = Some f ->
  let st' := App.onSubmit_settled o (fst (App.onSubmit env st)) in
  App.busy st' = false
  /\ match o with
     | App.Rejected err =>
         App.result st' = None
         /\ App.render st' = Some [App.ErrorText (App.message_of err)]
     | App.Resolved res =>
         if App.ok res then
           match App.json res with
           | inr data => App.error st' = None /\ App.result st' = data
           | inl err =>
               App.result st' = None
               /\ App.render st' = Some [App.ErrorText (App.message_of err)]
           end
         else
           App.result st' = None
           /\ App.render st'
              = Some [App.ErrorText
                        ("API error: " ++ JS.NumberToString (JS.of_Z (App.status res)))]
           /\ (0 <= App.status res < 1000 ->
               App.error st'
               = Some ("API error: " ++ Str.of_nonneg (App.status res))%string)
     end.
Proof.
  intros Hf st'. subst st'.
  unfold App.onSubmit. rewrite Hf. cbn [fst].
  split; [reflexivity |].
  destruct o as [err | res].
  - split; [reflexivity |].
    apply render_error_only; try reflexivity. apply message_of_truthy.
  - unfold App.onSubmit_settled, App.try_block.
    destruct (App.ok res); cbn [negb].
    + destruct (App.json res) as [err | data].
      * split; [reflexivity |].
        apply render_error_only; try reflexivity. apply message_of_truthy.
      * split; reflexivity.
    + split; [reflexivity |]. split.
      * apply render_error_only; reflexivity.
      * intros Hs. cbn. now rewrite (status_numeral _ Hs).
Qed.

Lemma settled_request_outcome_witness :
  App.file ready = Some photo
  /\ App.error
       (App.onSubmit_settled
          (App.Resolved {| App.status := 500; App.json := inr None |})
          (fst (App.onSubmit None ready)))
     = Some "API error: 500"%string.
Proof.
  split; [reflexivity |].
  pose proof (settled_request_outcome None ready photo
                (App.Resolved {| App.status := 500; App.json := inr None |})
                eq_refl) as H.
  cbv zeta in H. destruct H as (_ & H).
  change (App.ok {| App.status := 500; App.json := inr None |}) with false in H.
  destruct H as (_ & _ & H).
  apply H. cbn. lia.
Defined.

(** ** Requests in flight *)

Lemma enhance_request_carries_file (env : option string) (st : App.State) (f : App.File) :
  carries_file (App.enhance_request env st f).
Proof.
  exists f. unfold App.enhance_request; simpl App.req_body.
  now rewrite build_form_entries.
Qed.

Lemma canSubmit_iff (st : App.State) :
  App.canSubmit st = true <-> App.file st <> None /\ App.busy st = false.
Proof.
  unfold App.canSubmit.
  destruct (App.file st), (App.busy st); simpl; split;
    try (intros [H1 H2]); try intros H; try split; congruence.
Qed.

(** An edit of an input leaves [busy] and the requests as they are. *)
Lemma in_step_with_ui (c : App.Client) (st : App.State) :
  App.busy st = App.busy (App.ui c) ->
  in_step c -> in_step (App.with_ui c st).
Proof.
  intros Hb (Hlen & Hbusy & Hsent).
  unfold in_step, App.with_ui; simpl. rewrite Hb. auto.
Qed.

Lemma in_step_preserved (env : option string) (c c' : App.Client) (ev : App.Event) :
  in_step c -> App.step env c ev = Some c' -> in_step c'.
Proof.
  intros Hc Hstep.
  destruct ev; simpl in Hstep;
    try (injection Hstep as <-; now apply in_step_with_ui).
  - (* the scale input *)
    destruct (App.scale_disabled (App.ui c)); [discriminate |].
    injection Hstep as <-. now apply in_step_with_ui.
  - (* the submit button *)
    unfold App.submit_disabled in Hstep.
    destruct (App.canSubmit (App.ui c)) eqn:Hcan; [| discriminate].
    cbn [negb] in Hstep.
    destruct (App.passes_validation _ _); [| now injection Hstep as <-].
    destruct Hc as (Hlen & Hbusy & Hsent).
    apply canSubmit_iff in Hcan. destruct Hcan as (Hfile & Hidle).
    assert (Hnone : App.pending c = []).
    { destruct (App.pending c) as [| r rs]; [reflexivity |].
      assert (App.busy (App.ui c) = true) by (apply Hbusy; discriminate).
      congruence. }
    unfold App.onSubmit in Hstep.
    destruct (App.file (App.ui c)) as [f |]; [| congruence].
    simpl in Hstep. injection Hstep as <-.
    unfold in_step; simpl. rewrite Hnone. simpl.
    repeat split; auto; try discriminate.
    apply Forall_app. split; [exact Hsent |].
    constructor; [apply enhance_request_carries_file | constructor].
  - (* a request settles *)
    destruct Hc as (Hlen & Hbusy & Hsent).
    destruct (App.pending c) as [| r rs] eqn:Hp; [discriminate |].
    injection Hstep as <-.
    simpl in Hlen.
    assert (rs = []) by (destruct rs; [reflexivity | simpl in Hlen; lia]).
    subst rs. unfold in_step; simpl.
    repeat split; auto; try discriminate.
Qed.

Lemma reachable_in_step (env : option string) (c : App.Client) :
  App.reachable env c -> in_step c.
Proof.
  induction 1 as [| c ev c' _ IH Hstep].
  - unfold in_step; simpl. repeat split; auto; try discriminate.
  - exact (in_step_preserved env c c' ev IH Hstep).
Qed.

(** C10. Of every client a mounted component can become: at most one
    request is pending; [busy] is true exactly while one is; every
    request that was sent carries a file.  Besides, the submit button
    is disabled exactly when no file is chosen or [busy] is true,
    [onSubmit] without a file changes nothing and sends nothing, and
    [busy] is false once a request has settled, whatever the outcome. *)
Theorem one_request_at_a_time (env : option string) (c : App.Client) :
  App.reachable env c ->
  (List.length (App.pending c) <= 1)%nat
  /\ (App.busy (App.ui c) = true <-> App.pending c <> [])
  /\ Forall carries_file (App.sent c)
  /\ (App.submit_disabled (App.ui c) = true
      <-> App.file (App.ui c) = None \/ App.busy (App.ui c) = true)
  /\ (App.file (App.ui c) = None ->
      App.onSubmit env (App.ui c) = (App.ui c, []))
  /\ (forall o, App.busy (App.onSubmit_settled o (App.ui c)) = false).
Proof.
  intros Hreach.
  destruct (reachable_in_step env c Hreach) as (Hlen & Hbusy & Hsent).
  repeat (split; [assumption |]).
  split; [| split].
  - unfold App.submit_disabled, App.canSubmit.
    destruct (App.file (App.ui c)), (App.busy (App.ui c)); simpl;
      split; intros H; try reflexivity; try discriminate; auto.
    destruct H; discriminate.
  - intros Hf. unfold App.onSubmit. now rewrite Hf.
  - reflexivity.
Qed.

(** [onSubmit] itself does not look at [busy]: called on a busy state
    with a file it issues a request all the same.  It is the disabled
    button that keeps a second submission away. *)
Remark onSubmit_ignores_busy :
  snd (App.onSubmit None (App.setBusy true ready))
  = [App.enhance_request None (App.setBusy true ready) photo].
Proof. reflexivity. Qed.

(** A run of events from a reachable client ends in a reachable one. *)
Lemma run_reachable (env : option string) (evs : list App.Event) (c c' : App.Client) :
  App.reachable env c -> App.run env c evs = Some c' -> App.reachable env c'.
Proof.
  revert c. induction evs as [| ev evs IH]; simpl; intros c Hc Hrun.
  - injection Hrun as <-. exact Hc.
  - destruct (App.step env c ev) as [c1 |] eqn:Hstep; [| discriminate].
    apply (IH c1); [| exact Hrun].
    exact (App.reach_step env c ev c1 Hc Hstep).
Qed.

Lemma enhancing_reachable : App.reachable None enhancing.
Proof.
  apply (run_reachable None [App.ChooseFile (Some photo); App.PressSubmit true] App.mounted).
  - apply App.reach_mounted.
  - reflexivity.
Qed.

Lemma one_request_at_a_time_witness :
  App.reachable None enhancing
  /\ (List.length (App.pending enhancing) <= 1)%nat
  /\ App.busy (App.ui enhancing) = true
  /\ App.submit_disabled (App.ui enhancing) = true.
Proof.
  split; [exact enhancing_reachable |].
  destruct (one_request_at_a_time None enhancing enhancing_reachable)
    as (Hlen & Hbusy & _ & Hdis & _).
  split; [exact Hlen |].
  split; [apply Hbusy; discriminate |].
  apply Hdis. right. apply Hbusy. discriminate.
Defined.

(** ** Base64 *)

(** Lists three elements at a time. *)
Lemma list_by_threes {A} (P : list A -> Prop) :
  P [] ->
  (forall a, P [a]) ->
  (forall a b, P [a; b]) ->
  (forall a b c r, P r -> P (a :: b :: c :: r)) ->
  forall l, P l.
Proof.
  intros H0 H1 H2 H3 l.
  assert (H : P l /\ (forall a, P (a :: l)) /\ (forall a b, P (a :: b :: l))).
  { induction l as [| x l (IH0 & IH1 & IH2)].
    - auto.
    - repeat split; auto. }
  exact (proj1 H).
Qed.

Lemma every_sextet_below (p : N -> bool) (n : N) :
  every_sextet p = true -> (n < 64)%N -> p n = true.
Proof.
  unfold every_sextet. rewrite forallb_forall. intros Hall Hn.
  apply Hall. rewrite <- (N2Nat.id n). apply in_map, in_seq. lia.
Qed.

Lemma alphabet_char_below (n : N) : (n < 64)%N -> alphabet_char n = true.
Proof.
  apply every_sextet_below. vm_compute. reflexivity.
Qed.

Lemma sextets_below (l : list byte) :
  Forall (fun n => (n < 64)%N) (Web.sextets_of_bytes l).
Proof.
  induction l as [| a | a b | a b c r IH] using list_by_threes;
    cbn [Web.sextets_of_bytes];
    try (pose proof (Byte.to_N_bounded a));
    try (pose proof (Byte.to_N_bounded b));
    try (pose proof (Byte.to_N_bounded c));
    repeat (constructor; [div_lia |]); auto.
Qed.

(** Decoding the sextets of some bytes gives the bytes back. *)
Lemma bytes_of_sextets_of_bytes (l : list byte) :
  Web.bytes_of_sextets (Web.sextets_of_bytes l) = List.map ascii_of_byte l.
Proof.
  induction l as [| a | a b | a b c r IH] using list_by_threes;
    cbn [Web.sextets_of_bytes Web.bytes_of_sextets List.map];
    try (pose proof (Byte.to_N_bounded a));
    try (pose proof (Byte.to_N_bounded b));
    try (pose proof (Byte.to_N_bounded c));
    rewrite ?ascii_of_byte_via_N.
  - reflexivity.
  - f_equal. f_equal. div_lia.
  - f_equal; [f_equal; div_lia |]. f_equal. f_equal. div_lia.
  - rewrite IH.
    f_equal; [f_equal; div_lia |].
    f_equal; [f_equal; div_lia |].
    f_equal. f_equal. div_lia.
Qed.

(** The sextets come in fours, but for a last group of two or three;
    the padding completes it. *)
Lemma sextets_length (l : list byte) :
  exists k, (List.length (Web.sextets_of_bytes l) + List.length (Web.padding l) = 4 * k)%nat
            /\ (List.length (Web.padding l) <= 2)%nat.
Proof.
  induction l as [| a | a b | a b c r (k & Hk & Hp)] using list_by_threes.
  - exists 0%nat. split; simpl; lia.
  - exists 1%nat. split; simpl; lia.
  - exists 1%nat. split; simpl; lia.
  - exists (S k).
    assert (Hpad : Web.padding (a :: b :: c :: r) = Web.padding r).
    { unfold Web.padding. cbn [List.length].
      replace (S (S (S (List.length r)))) with (List.length r + 1 * 3)%nat by lia.
      now rewrite Nat.Div0.mod_add. }
    rewrite Hpad. cbn [Web.sextets_of_bytes List.length]. split; lia.
Qed.

Lemma padding_cases (l : list byte) :
  Web.padding l = [] \/ Web.padding l = ["="%char]
  \/ Web.padding l = ["="%char; "="%char].
Proof.
  unfold Web.padding.
  destruct (List.length l mod 3)%nat as [| [| [| n]]]; auto.
Qed.

Lemma strip_padding_app (chars pad : list ascii) :
  Forall (fun c => Ascii.eqb c "=" = false) chars ->
  pad = [] \/ pad = ["="%char] \/ pad = ["="%char; "="%char] ->
  Web.strip_padding (chars ++ pad) = chars.
Proof.
  intros Hchars Hpad.
  assert (Hlast : forall c r, rev chars = c :: r -> Ascii.eqb c "=" = false).
  { intros c r Hrev. rewrite Forall_forall in Hchars. apply Hchars.
    apply in_rev. rewrite Hrev. now left. }
  unfold Web.strip_padding. rewrite rev_app_distr.
  destruct Hpad as [-> | [-> | ->]]; simpl.
  - rewrite app_nil_r.
    destruct (rev chars) as [| c r] eqn:Hrev; [reflexivity |].
    specialize (Hlast c r eq_refl).
    destruct c as [[] [] [] [] [] [] [] []]; try reflexivity; discriminate Hlast.
  - destruct (rev chars) as [| c r] eqn:Hrev.
    + rewrite <- (rev_involutive chars), Hrev. reflexivity.
    + specialize (Hlast c r eq_refl).
      rewrite <- Hrev, rev_involutive.
      destruct c as [[] [] [] [] [] [] [] []]; try reflexivity; discriminate Hlast.
  - apply rev_involutive.
Qed.

Lemma filter_keeps_all {A} (p : A -> bool) (l : list A) :
  Forall (fun x => p x = true) l -> filter p l = l.
Proof.
  induction 1 as [| x l Hx _ IH]; simpl; [reflexivity |].
  now rewrite Hx, IH.
Qed.

Lemma sextets_of_alphabet_chars (ns : list N) :
  Forall (fun n => (n < 64)%N) ns ->
  Web.sextets_of_chars (List.map Web.char_of_sextet ns) = Some ns.
Proof.
  induction 1 as [| n ns Hn _ IH]; simpl; [reflexivity |].
  rewrite IH.
  pose proof (alphabet_char_below n Hn) as Ha. unfold alphabet_char in Ha.
  destruct (Web.sextet_of_char (Web.char_of_sextet n)) as [k |].
  - apply andb_true_iff in Ha. destruct Ha as [_ Hk].
    apply N.eqb_eq in Hk. now subst k.
  - rewrite andb_false_r in Ha. discriminate Ha.
Qed.

(** What [alphabet_char] says of the characters of an encoding. *)
Lemma alphabet_chars (p : ascii -> bool) (ns : list N) :
  (forall n, alphabet_char n = true -> p (Web.char_of_sextet n) = true) ->
  Forall (fun n => (n < 64)%N) ns ->
  Forall (fun c => p c = true) (List.map Web.char_of_sextet ns).
Proof.
  intros Hp Hns. apply Forall_map.
  eapply Forall_impl; [| exact Hns].
  intros n Hn. apply Hp, alphabet_char_below, Hn.
Qed.

(** [atob] undoes [base64]. *)
Lemma atob_base64 (l : list byte) :
  Web.atob (Web.base64 l) = Some (string_of_list_ascii (List.map ascii_of_byte l)).
Proof.
  unfold Web.atob, Web.base64.
  rewrite list_ascii_of_string_of_list_ascii.
  set (chars := List.map Web.char_of_sextet (Web.sextets_of_bytes l)).
  pose proof (sextets_below l) as Hlt.
  destruct (sextets_length l) as (k & Hk & Hp).
  assert (Hlen : List.length chars = List.length (Web.sextets_of_bytes l))
    by apply length_map.
  (* no white space to remove *)
  rewrite filter_keeps_all.
  2:{ apply Forall_app. split.
      - apply alphabet_chars; [| exact Hlt].
        intros n Hn. unfold alphabet_char in Hn.
        repeat (apply andb_true_iff in Hn; destruct Hn as [Hn ?]).
        exact Hn.
      - destruct (padding_cases l) as [-> | [-> | ->]];
          repeat constructor. }
  (* the padded length is a multiple of four *)
  replace (N.of_nat (List.length (chars ++ Web.padding l)) mod 4 =? 0)%N with true.
  2:{ symmetry. apply N.eqb_eq. rewrite length_app, Hlen, Hk.
      rewrite Nat2N.inj_mul, N.mul_comm. apply N.Div0.mod_mul. }
  rewrite strip_padding_app; [| | apply padding_cases].
  2:{ eapply Forall_impl;
        [| apply (alphabet_chars (fun c => negb (Ascii.eqb c "=")));
           [| exact Hlt]].
      - intros c Hc. now apply negb_true_iff in Hc.
      - intros n Hn. unfold alphabet_char in Hn.
        repeat (apply andb_true_iff in Hn; destruct Hn as [Hn ?]).
        assumption. }
  (* what is left is not one character more than a multiple of four *)
  replace (N.of_nat (List.length chars) mod 4 =? 1)%N with false.
  2:{ symmetry. apply N.eqb_neq. rewrite Hlen.
      assert (Hcases : exists j, (List.length (Web.sextets_of_bytes l) = 4 * j
                                  \/ List.length (Web.sextets_of_bytes l) = 4 * j + 2
                                  \/ List.length (Web.sextets_of_bytes l) = 4 * j + 3)%nat).
      { destruct (padding_cases l) as [E | [E | E]]; rewrite E in Hk; simpl in Hk.
        - exists k. lia.
        - exists (k - 1)%nat. lia.
        - exists (k - 1)%nat. lia. }
      destruct Hcases as (j & [E | [E | E]]); rewrite E; div_lia. }
  unfold chars. rewrite sextets_of_alphabet_chars by exact Hlt.
  now rewrite bytes_of_sextets_of_bytes.
Qed.

(** ** Strings taken apart and put together *)

Lemma append_assoc (a b c : string) : ((a ++ b) ++ c = a ++ (b ++ c))%string.
Proof.
  induction a as [| x a IH]; simpl; [reflexivity | now rewrite IH].
Qed.

Lemma existsb_append (p : ascii -> bool) (a b : string) :
  Str.existsb p (a ++ b) = Str.existsb p a || Str.existsb p b.
Proof.
  induction a as [| x a IH]; simpl; [reflexivity |].
  now rewrite IH, orb_assoc.
Qed.

Lemma existsb_of_list (p : ascii -> bool) (l : list ascii) :
  Str.existsb p (string_of_list_ascii l) = List.existsb p l.
Proof.
  induction l as [| x l IH]; simpl; [reflexivity | now rewrite IH].
Qed.

Lemma existsb_none (p : ascii -> bool) (l : list ascii) :
  Forall (fun c => p c = false) l -> List.existsb p l = false.
Proof.
  induction 1 as [| x l Hx _ IH]; simpl; [reflexivity | now rewrite Hx, IH].
Qed.

Lemma split_without_comma (s : string) :
  Str.existsb is_comma s = false -> JS.split "," s = [s].
Proof.
  induction s as [| c s IH]; simpl; [reflexivity |].
  intros H. apply orb_false_iff in H. destruct H as [Hc Hs].
  unfold is_comma in Hc. rewrite Hc, (IH Hs). reflexivity.
Qed.

Lemma split_at_first_comma (a b : string) :
  Str.existsb is_comma a = false ->
  JS.split "," (a ++ String "," b) = a :: JS.split "," b.
Proof.
  induction a as [| c a IH]; simpl; [reflexivity |].
  intros H. apply orb_false_iff in H. destruct H as [Hc Ha].
  unfold is_comma in Hc. rewrite Hc, (IH Ha). reflexivity.
Qed.

Lemma base64_without_comma (l : list byte) :
  Str.existsb is_comma (Web.base64 l) = false.
Proof.
  unfold Web.base64. rewrite existsb_of_list. apply existsb_none.
  apply Forall_app. split.
  - eapply Forall_impl;
      [| apply (alphabet_chars (fun c => negb (is_comma c)));
         [| apply sextets_below]].
    + intros c Hc. now apply negb_true_iff in Hc.
    + intros n Hn. unfold alphabet_char in Hn.
      repeat (apply andb_true_iff in Hn; destruct Hn as [Hn ?]).
      assumption.
  - destruct (padding_cases l) as [-> | [-> | ->]]; repeat constructor.
Qed.

(** A data URL splits into its header and its base64 body. *)
Lemma split_data_url (mime : string) (bytes : list byte) :
  Str.existsb is_comma mime = false ->
  JS.split "," (data_url mime bytes)
  = [("data:" ++ mime ++ ";base64")%string; Web.base64 bytes].
Proof.
  intros Hm. unfold data_url.
  replace ("data:" ++ mime ++ ";base64," ++ Web.base64 bytes)%string
    with (("data:" ++ mime ++ ";base64") ++ String "," (Web.base64 bytes))%string.
  - rewrite split_at_first_comma.
    + now rewrite split_without_comma by apply base64_without_comma.
    + rewrite !existsb_append, Hm. reflexivity.
  - rewrite !append_assoc. reflexivity.
Qed.

(** ** The pattern of [dataUrlToBlob] *)

Lemma printable_not_line_terminator (c : ascii) :
  Str.is_printable c = true -> JS.is_line_terminator c = false.
Proof.
  unfold Str.is_printable, JS.is_line_terminator.
  intros H. apply andb_true_iff in H. destruct H as [Hlo _].
  apply Z.leb_le in Hlo.
  apply orb_false_iff. split; apply Z.eqb_neq; lia.
Qed.

(** Before [;base64] at the end, the greedy group takes everything, as
    long as no line terminator stops the dot. *)
Lemma capture_whole (m : string) :
  Str.existsb JS.is_line_terminator m = false ->
  JS.capture_before_base64 (m ++ ";base64") = Some m.
Proof.
  induction m as [| c m IH]; [reflexivity |].
  intros H. apply orb_false_iff in H. destruct H as [Hc Hm].
  cbn [String.append JS.capture_before_base64].
  now rewrite Hc, (IH Hm).
Qed.

Lemma match_header (m : string) :
  Str.existsb JS.is_line_terminator m = false ->
  JS.match_data_base64 ("data:" ++ m ++ ";base64") = Some m.
Proof.
  intros Hm.
  change ("data:" ++ m ++ ";base64")%string
    with (String "d" (String "a" (String "t" (String "a" (String ":"
            (m ++ ";base64")))))).
  cbn [JS.match_data_base64 Str.strip_prefix Ascii.eqb Bool.eqb].
  now rewrite (capture_whole m Hm).
Qed.

Lemma printable_no_line_terminator (m : string) :
  Str.forallb Str.is_printable m = true ->
  Str.existsb JS.is_line_terminator m = false.
Proof.
  induction m as [| c m IH]; simpl; [reflexivity |].
  intros H. apply andb_true_iff in H. destruct H as [Hc Hm].
  now rewrite (printable_not_line_terminator c Hc), (IH Hm).
Qed.

Lemma lower_without_upper (m : string) :
  Str.existsb Str.is_upper m = false -> Str.map Str.to_lower m = m.
Proof.
  induction m as [| c m IH]; simpl; [reflexivity |].
  intros H. apply orb_false_iff in H. destruct H as [Hc Hm].
  unfold Str.to_lower at 1. now rewrite Hc, (IH Hm).
Qed.

(** ** [dataUrlToBlob] on a data URL *)

Lemma bytes_of_binary_string (bytes : list byte) :
  List.map byte_of_ascii
    (list_ascii_of_string (string_of_list_ascii (List.map ascii_of_byte bytes)))
  = bytes.
Proof.
  rewrite list_ascii_of_string_of_list_ascii, map_map.
  induction bytes as [| b bytes IH]; simpl; [reflexivity |].
  now rewrite byte_of_ascii_of_byte, IH.
Qed.

(** On the data URL of a comma-free MIME type the function returns a
    blob with the encoded bytes. *)
Lemma dataUrlToBlob_returns (mime : string) (bytes : list byte) :
  Str.existsb is_comma mime = false ->
  dataUrlToBlob (data_url mime bytes)
  = Some (Web.new_Blob bytes
            match JS.match_data_base64 ("data:" ++ mime ++ ";base64") with
            | Some m => m
            | None => "application/octet-stream"%string
            end).
Proof.
  intros Hm. unfold dataUrlToBlob.
  rewrite (split_data_url mime bytes Hm).
  cbn [hd nth_error JS.ToString_or_undefined].
  now rewrite atob_base64, bytes_of_binary_string.
Qed.




(** ** The card of a result *)

Lemma data_url_truthy (mime : string) (bytes : list byte) :
  JS.truthy (data_url mime bytes) = true.
Proof. reflexivity. Qed.

(** The button of a key: nothing when the key is absent, one link to
    the decoded blob when its value is an embedded-data string. *)
Lemma DownloadButton_of (label filename : string) (v : option string) :
  (forall u, v = Some u -> embedded u) ->
  exists nodes,
    App.DownloadButton label v filename = Some nodes
    /\ match v with
       | None => nodes = []
       | Some u =>
           exists blob, dataUrlToBlob u = Some blob
                        /\ nodes = [App.DownloadLink label filename blob]
       end.
Proof.
  intros Hv. destruct v as [u |].
  - destruct (Hv u eq_refl) as (mime & bytes & -> & Hcomma).
    unfold App.DownloadButton.
    rewrite data_url_truthy, (dataUrlToBlob_returns mime bytes Hcomma). cbn [negb].
    eexists. split; [reflexivity |].
    eexists. split; reflexivity.
  - exists []. split; reflexivity.
Qed.

(** C5. For every response whose present values are embedded-data
    strings, whichever keys are absent: the card renders, it has the
    download link of a format exactly when its key is present, the link
    leading to the decoded blob, and the preview image exactly when
    [png] is present; the page of a state with that result renders
    too. *)
Theorem present_formats_render (r : App.Result) :
  api_response r ->
  exists card,
    App.result_card r = Some card
    /\ (forall fmt v, value_of fmt r = Some v ->
          exists blob, dataUrlToBlob v = Some blob
            /\ In (App.DownloadLink (label_of fmt) (filename_of fmt) blob) card)
    /\ (forall fmt, value_of fmt r = None ->
          forall blob,
            ~ In (App.DownloadLink (label_of fmt) (filename_of fmt) blob) card)
    /\ (forall v, App.png r = Some v -> In (App.PreviewImage v) card)
    /\ (App.png r = None -> forall src, ~ In (App.PreviewImage src) card)
    /\ (forall st, App.result st = Some r ->
          App.render st = Some (App.error_text st ++ card)).
Proof.
  intros Hr.
  destruct (DownloadButton_of "PNG" "image_enhanced.png" (App.png r) (Hr PNG))
    as (b1 & E1 & H1).
  destruct (DownloadButton_of "JPG" "image_enhanced.jpg" (App.jpg r) (Hr JPG))
    as (b2 & E2 & H2).
  destruct (DownloadButton_of "WEBP" "image_enhanced.webp" (App.webp r) (Hr WEBP))
    as (b3 & E3 & H3).
  destruct (DownloadButton_of "APNG" "image_enhanced.apng" (App.apng r) (Hr APNG))
    as (b4 & E4 & H4).
  assert (Hcard : App.result_card r = Some (App.preview r ++ b1 ++ b2 ++ b3 ++ b4)).
  { unfold App.result_card. now rewrite E1, E2, E3, E4. }
  assert (Hpreview : App.preview r
                     = match App.png r with
                       | Some v => [App.PreviewImage v]
                       | None => []
                       end).
  { unfold App.preview. destruct (App.png r) as [v |] eqn:Hp; [| reflexivity].
    destruct (Hr PNG v Hp) as (mime & bytes & -> & _). reflexivity. }
  exists (App.preview r ++ b1 ++ b2 ++ b3 ++ b4).
  split; [exact Hcard |].
  rewrite Hpreview.
  split; [| split; [| split; [| split]]].
  - intros fmt v Hv.
    destruct fmt; simpl in Hv; rewrite Hv in *;
      match goal with
      | H : exists blob, dataUrlToBlob v = Some blob /\ _ |- _ =>
          destruct H as (blob & Hblob & ->)
      end;
      exists blob; (split; [exact Hblob |]);
      rewrite !in_app_iff; simpl; auto 8.
  - intros fmt Hnone blob Hin.
    destruct fmt; simpl in Hnone;
      destruct (App.png r), (App.jpg r), (App.webp r), (App.apng r);
      try discriminate Hnone;
      repeat match goal with
             | H : exists b, _ /\ _ |- _ => destruct H as (? & _ & ->)
             end;
      subst; simpl in Hin;
      repeat (destruct Hin as [Hin | Hin]; [discriminate Hin |]);
      contradiction.
  - intros v Hv. rewrite Hv. now left.
  - intros Hnone src Hin. rewrite Hnone in Hin.
    destruct (App.png r), (App.jpg r), (App.webp r), (App.apng r);
      repeat match goal with
             | H : exists b, _ /\ _ |- _ => destruct H as (? & _ & ->)
             end;
      subst; try discriminate Hnone;
      simpl in Hin;
      repeat (destruct Hin as [Hin | Hin]; [discriminate Hin |]);
      contradiction.
  - intros st Hst. unfold App.render. rewrite Hst, Hcard.
    now rewrite Hpreview.
Qed.

Lemma partial_response_is_api_response : api_response partial_response.
Proof.
  intros fmt v Hv.
  destruct fmt; simpl in Hv; try discriminate Hv; injection Hv as <-;
    eexists _, _; split; reflexivity.
Qed.

Lemma present_formats_render_witness :
  api_response partial_response
  /\ exists card, App.result_card partial_response = Some card.
Proof.
  split; [exact partial_response_is_api_response |].
  destruct (present_formats_render partial_response partial_response_is_api_response)
    as (card & Hcard & _).
  exists card. exact Hcard.
Defined.

(** ** Geometry Planner *)

(** C3. For every source size and options, under each way of rounding
    a half: both target sides set gives them verbatim; only the width
    set gives the height [round(targetWidth * sourceH / sourceW)]; only
    the height set gives the width [round(targetHeight * sourceW /
    sourceH)]; neither set gives both sides scaled and rounded.  The
    plan is that target size, and it fails, with InvalidGeometryError,
    exactly when a side of it is below 1.  The four examples of
    section 8 evaluate as given. *)
Theorem plan_follows_section_4_2 (t : Spec.Ties) (sourceW sourceH : Z)
    (o : Spec.EnhancementOptions) :
  Spec.target t sourceW sourceH o
  = match Spec.targetWidth o, Spec.targetHeight o with
    | Some w, Some h => (w, h)
    | Some w, None =>
        (w, Spec.round t (inject_Z w * inject_Z sourceH / inject_Z sourceW))
    | None, Some h =>
        (Spec.round t (inject_Z h * inject_Z sourceW / inject_Z sourceH), h)
    | None, None =>
        (Spec.round t (inject_Z sourceW * Spec.scale o),
         Spec.round t (inject_Z sourceH * Spec.scale o))
    end
  /\ (Spec.plan t sourceW sourceH o = inl Spec.InvalidGeometryError
      <-> fst (Spec.target t sourceW sourceH o) < 1
          \/ snd (Spec.target t sourceW sourceH o) < 1)
  /\ (Spec.plan t sourceW sourceH o = inr (Spec.target t sourceW sourceH o)
      <-> 1 <= fst (Spec.target t sourceW sourceH o)
          /\ 1 <= snd (Spec.target t sourceW sourceH o))
  /\ Spec.plan t 100 50 (sized (Some 200) None 2.0) = inr (200, 100)
  /\ Spec.plan t 100 50 (sized None (Some 25) 2.0) = inr (50, 25)
  /\ Spec.plan t 100 50 (sized None None 3) = inr (300, 150)
  /\ Spec.plan t 100 50 (sized (Some 10) (Some 10) 2.0) = inr (10, 10).
Proof.
  split; [reflexivity |].
  split; [| split].
  - unfold Spec.plan.
    destruct (Spec.target t sourceW sourceH o) as (w, h); cbn [fst snd].
    destruct (Z.ltb_spec w 1), (Z.ltb_spec h 1); cbn [orb];
      split; intros Hp; try reflexivity; try discriminate Hp; lia.
  - unfold Spec.plan.
    destruct (Spec.target t sourceW sourceH o) as (w, h); cbn [fst snd].
    destruct (Z.ltb_spec w 1), (Z.ltb_spec h 1); cbn [orb];
      split; intros Hp; try reflexivity; try discriminate Hp; lia.
  - destruct t; repeat split; vm_compute; reflexivity.
Qed.

(** ** Out-of-range input *)

Lemma optional_error {A} (decode : string -> option A) (name : string)
    (default : A) (form : App.FormData) (e : Spec.Error) :
  Spec.optional decode name default form = inl e -> e = Spec.InvalidOptionError.
Proof.
  unfold Spec.optional.
  destruct (Spec.field name form) as [s |]; [| discriminate].
  destruct (decode s); [discriminate |]. now intros [= <-].
Qed.

(** The form decodes to options that hold what each field decodes to,
    or the decoding fails with InvalidOptionError. *)
Lemma decode_form_cases (form : App.FormData) :
  Spec.decode_form form = inl Spec.InvalidOptionError
  \/ exists o,
       Spec.decode_form form = inr o
       /\ Spec.optional Spec.decode_decimal "scale"
            (Spec.scale Spec.default_options) form = inr (Spec.scale o)
       /\ Spec.optional (fun s => option_map Some (Spec.decode_int s)) "targetWidth"
            None form = inr (Spec.targetWidth o)
       /\ Spec.optional (fun s => option_map Some (Spec.decode_int s)) "targetHeight"
            None form = inr (Spec.targetHeight o).
Proof.
  unfold Spec.decode_form, Spec.bind.
  repeat match goal with
         | |- context [match Spec.optional ?d ?n ?v form with _ => _ end] =>
             let E := fresh "E" in
             destruct (Spec.optional d n v form) eqn:E;
               [apply optional_error in E; subst; now left |]
         end.
  right. eexists. repeat split; reflexivity.
Qed.

Lemma String_of_minus_1 : JS.NumberToString (-1)%float = "-1"%string.
Proof. vm_compute. reflexivity. Qed.

Lemma zero_below_min : Web.suffers_underflow App.size_min "0" = true.
Proof. vm_compute. reflexivity. Qed.

Lemma empty_not_below_min : Web.suffers_underflow App.size_min EmptyString = false.
Proof. vm_compute. reflexivity. Qed.

Lemma inside_Z (lo hi x : Z) :
  (lo <=? x) && (x <=? hi) = true -> ~ outside_Z lo hi x.
Proof.
  intros H [Hlt | Hlt]; apply andb_true_iff in H; destruct H as [H1 H2];
    apply Z.leb_le in H1, H2; lia.
Qed.

Lemma inside_Q (lo hi x : Q) :
  Spec.in_range lo hi x = true -> ~ outside_Q lo hi x.
Proof.
  unfold Spec.in_range. intros H [Hlt | Hlt];
    apply andb_true_iff in H; destruct H as [H1 H2];
    apply Qle_bool_iff in H1, H2.
  - exact (Qlt_not_le _ _ Hlt H1).
  - exact (Qlt_not_le _ _ Hlt H2).
Qed.

(** An option out of its range fails the validation. *)
Lemma validate_out_of_range (o : Spec.EnhancementOptions) :
  out_of_range o -> Spec.validate o = Some Spec.InvalidOptionError.
Proof.
  intros Hout. unfold Spec.validate.
  destruct (Spec.in_documented_ranges o) eqn:Hin; [exfalso | reflexivity].
  unfold Spec.in_documented_ranges in Hin.
  repeat match type of Hin with
         | (_ && _ = true) =>
             let H := fresh "Hin" in
             apply andb_true_iff in Hin; destruct Hin as [Hin H]
         end.
  destruct Hout as [(Hw & Hh & Hs) | [(w & Hw & Hlt) | [(h & Hh & Hlt) | Hout]]].
  - rewrite Hw, Hh in Hin. apply negb_true_iff in Hin.
    apply Qle_bool_iff in Hs. congruence.
  - rewrite Hw in Hin7. apply Z.leb_le in Hin7. lia.
  - rewrite Hh in Hin6. apply Z.leb_le in Hin6. lia.
  - destruct Hout as [H | [H | [H | [H | [H | H]]]]]; revert H;
      first [now apply inside_Z | now apply inside_Q].
Qed.

Lemma enhance_out_of_range (decoder : list byte -> Spec.Error + Z * Z) (t : Spec.Ties)
    (input : list byte) (o : Spec.EnhancementOptions) :
  out_of_range o ->
  Spec.enhance decoder t input o = Spec.rejected Spec.InvalidOptionError.
Proof.
  intros Hout. unfold Spec.enhance. now rewrite (validate_out_of_range o Hout).
Qed.

Lemma serve_out_of_range (decoder : list byte -> Spec.Error + Z * Z) (t : Spec.Ties)
    (form : App.FormData) :
  (forall o, Spec.decode_form form = inr o -> out_of_range o) ->
  Spec.serve decoder t form = Spec.rejected Spec.InvalidOptionError.
Proof.
  intros Hv. unfold Spec.serve.
  destruct (decode_form_cases form) as [-> | (o & Ho & _)]; [reflexivity |].
  rewrite Ho. apply enhance_out_of_range. now apply Hv.
Qed.

Lemma rejected_is_unprocessed (e : Spec.Error) :
  rejected_unprocessed (Spec.rejected e) e.
Proof. split; reflexivity. Qed.



(* ================================================================== *)
(** * Further properties of the component *)
(* ================================================================== *)

(** ** [dataUrlToBlob] piece by piece *)

Lemma split_nonempty (s : string) :
  exists first rest, JS.split "," s = first :: rest.
Proof.
  induction s as [| c s (first & rest & IH)]; simpl.
  - now exists EmptyString, [].
  - destruct (Ascii.eqb c ","); [now eexists _, _ |].
    rewrite IH. now eexists _, _.
Qed.

Lemma atob_undefined : Web.atob "undefined" = None.
Proof. reflexivity. Qed.

(** What the function does once the header is cut off: it decodes the
    piece up to the next comma and types the blob after the header. *)
Lemma dataUrlToBlob_after_header (header body : string) :
  Str.existsb is_comma header = false ->
  dataUrlToBlob (header ++ String "," body)
  = match Web.atob (hd EmptyString (JS.split "," body)) with
    | None => None
    | Some bytes =>
        Some (Web.new_Blob
                (List.map byte_of_ascii (list_ascii_of_string bytes))
                match JS.match_data_base64 header with
                | Some m => m
                | None => "application/octet-stream"%string
                end)
    end.
Proof.
  intros Hh. unfold dataUrlToBlob.
  rewrite (split_at_first_comma header body Hh).
  destruct (split_nonempty body) as (first & rest & ->).
  reflexivity.
Qed.

(** X1. An argument without a comma, the empty string among them, never
    gives a blob: [base64] is then undefined and [atob] throws. *)
Theorem dataUrlToBlob_without_comma_throws (dataUrl : string) :
  Str.existsb is_comma dataUrl = false -> dataUrlToBlob dataUrl = None.
Proof.
  intros Hu. unfold dataUrlToBlob.
  rewrite (split_without_comma dataUrl Hu).
  cbn [hd nth_error JS.ToString_or_undefined].
  now rewrite atob_undefined.
Qed.

Lemma dataUrlToBlob_without_comma_throws_witness :
  Str.existsb is_comma "data:image/png;base64" = false
  /\ dataUrlToBlob "data:image/png;base64" = None.
Proof.
  split; [reflexivity |].
  apply (dataUrlToBlob_without_comma_throws "data:image/png;base64"). reflexivity.
Defined.

(** X2. Only the text between the first and the second comma is
    decoded: whatever follows a second comma changes nothing. *)
Theorem dataUrlToBlob_ignores_after_second_comma (header body rest : string) :
  Str.existsb is_comma header = false ->
  Str.existsb is_comma body = false ->
  dataUrlToBlob (header ++ String "," (body ++ String "," rest))
  = dataUrlToBlob (header ++ String "," body).
Proof.
  intros Hh Hb.
  rewrite !(dataUrlToBlob_after_header header _ Hh).
  rewrite (split_at_first_comma body rest Hb), (split_without_comma body Hb).
  reflexivity.
Qed.

Lemma dataUrlToBlob_ignores_after_second_comma_witness :
  dataUrlToBlob "data:text/plain;base64,aGk=,bW9yZQ=="
  = dataUrlToBlob "data:text/plain;base64,aGk=".
Proof.
  apply (dataUrlToBlob_ignores_after_second_comma
           "data:text/plain;base64" "aGk=" "bW9yZQ=="); reflexivity.
Defined.

(** X3. The header only types the blob.  Under two headers without a
    comma the same body gives the same bytes, or throws under both; the
    header is not checked in any way. *)
Theorem blob_bytes_ignore_header (header1 header2 body : string) :
  Str.existsb is_comma header1 = false ->
  Str.existsb is_comma header2 = false ->
  option_map Web.blob_bytes (dataUrlToBlob (header1 ++ String "," body))
  = option_map Web.blob_bytes (dataUrlToBlob (header2 ++ String "," body)).
Proof.
  intros H1 H2.
  rewrite (dataUrlToBlob_after_header header1 body H1),
          (dataUrlToBlob_after_header header2 body H2).
  destruct (Web.atob _); reflexivity.
Qed.

Lemma blob_bytes_ignore_header_witness :
  option_map Web.blob_bytes (dataUrlToBlob "data:image/png;base64,aGk=")
  = option_map Web.blob_bytes (dataUrlToBlob "no header at all,aGk=").
Proof.
  apply (blob_bytes_ignore_header "data:image/png;base64" "no header at all" "aGk=");
    reflexivity.
Defined.

(** ** A body without padding *)

Lemma sextets_not_one_more (l : list byte) :
  (N.of_nat (List.length (Web.sextets_of_bytes l)) mod 4 <> 1)%N.
Proof.
  induction l as [| a | a b | a b c r IH] using list_by_threes;
    cbn [Web.sextets_of_bytes List.length]; try (intros H; discriminate H).
  replace (N.of_nat (S (S (S (S (List.length (Web.sextets_of_bytes r)))))))
    with (N.of_nat (List.length (Web.sextets_of_bytes r)) + 1 * 4)%N by lia.
  now rewrite N.Div0.mod_add.
Qed.

Lemma alphabet_not_whitespace (ns : list N) :
  Forall (fun n => (n < 64)%N) ns ->
  Forall (fun c => negb (Web.is_ascii_whitespace c) = true)
         (List.map Web.char_of_sextet ns).
Proof.
  apply alphabet_chars. intros n Hn. unfold alphabet_char in Hn.
  repeat (apply andb_true_iff in Hn; destruct Hn as [Hn ?]).
  exact Hn.
Qed.

Lemma alphabet_not_padding (ns : list N) :
  Forall (fun n => (n < 64)%N) ns ->
  Forall (fun c => Ascii.eqb c "=" = false) (List.map Web.char_of_sextet ns).
Proof.
  intros Hns.
  eapply Forall_impl;
    [| apply (alphabet_chars (fun c => negb (Ascii.eqb c "="))); [| exact Hns]].
  - intros c Hc. now apply negb_true_iff in Hc.
  - intros n Hn. unfold alphabet_char in Hn.
    repeat (apply andb_true_iff in Hn; destruct Hn as [Hn ?]).
    assumption.
Qed.

Lemma alphabet_not_comma (ns : list N) :
  Forall (fun n => (n < 64)%N) ns ->
  Forall (fun c => is_comma c = false) (List.map Web.char_of_sextet ns).
Proof.
  intros Hns.
  eapply Forall_impl;
    [| apply (alphabet_chars (fun c => negb (is_comma c))); [| exact Hns]].
  - intros c Hc. now apply negb_true_iff in Hc.
  - intros n Hn. unfold alphabet_char in Hn.
    repeat (apply andb_true_iff in Hn; destruct Hn as [Hn ?]).
    assumption.
Qed.

(** [atob] also reads an encoding whose padding was left out. *)
Lemma atob_base64_unpadded (l : list byte) :
  Web.atob (base64_unpadded l)
  = Some (string_of_list_ascii (List.map ascii_of_byte l)).
Proof.
  unfold Web.atob, base64_unpadded.
  rewrite list_ascii_of_string_of_list_ascii.
  set (chars := List.map Web.char_of_sextet (Web.sextets_of_bytes l)).
  pose proof (sextets_below l) as Hlt.
  rewrite filter_keeps_all by (apply alphabet_not_whitespace, Hlt).
  assert (Hstrip : Web.strip_padding chars = chars).
  { rewrite <- (app_nil_r chars) at 1.
    apply strip_padding_app; [apply alphabet_not_padding, Hlt | now left]. }
  rewrite Hstrip.
  replace (if (N.of_nat (List.length chars) mod 4 =? 0)%N then chars else chars)
    with chars by (now destruct (N.of_nat (List.length chars) mod 4 =? 0)%N).
  replace (N.of_nat (List.length chars) mod 4 =? 1)%N with false.
  2:{ symmetry. apply N.eqb_neq. unfold chars. rewrite length_map.
      apply sextets_not_one_more. }
  unfold chars. rewrite sextets_of_alphabet_chars by exact Hlt.
  now rewrite bytes_of_sextets_of_bytes.
Qed.

Lemma base64_unpadded_without_comma (l : list byte) :
  Str.existsb is_comma (base64_unpadded l) = false.
Proof.
  unfold base64_unpadded. rewrite existsb_of_list.
  apply existsb_none, alphabet_not_comma, sextets_below.
Qed.

(** X4. The padding is optional: for every comma-free MIME string and
    every byte sequence, the data URL written without the [=] at its end
    gives the same blob as the padded one. *)
Theorem dataUrlToBlob_accepts_unpadded (mime : string) (bytes : list byte) :
  Str.existsb is_comma mime = false ->
  dataUrlToBlob (("data:" ++ mime ++ ";base64") ++ String "," (base64_unpadded bytes))
  = dataUrlToBlob (data_url mime bytes).
Proof.
  intros Hm.
  assert (Hh : Str.existsb is_comma ("data:" ++ mime ++ ";base64") = false).
  { rewrite !existsb_append, Hm. reflexivity. }
  rewrite (dataUrlToBlob_after_header _ _ Hh).
  rewrite (split_without_comma _ (base64_unpadded_without_comma bytes)).
  cbn [hd]. rewrite atob_base64_unpadded, bytes_of_binary_string.
  now rewrite (dataUrlToBlob_returns mime bytes Hm).
Qed.

Lemma dataUrlToBlob_accepts_unpadded_witness :
  dataUrlToBlob "data:image/png;base64,aGVsbG8"
  = dataUrlToBlob "data:image/png;base64,aGVsbG8=".
Proof.
  apply (dataUrlToBlob_accepts_unpadded "image/png" [x68; x65; x6c; x6c; x6f]).
  reflexivity.
Defined.

(** ** The entries of the form *)

Lemma get_of_distinct_names (form : App.FormData) (name : string) (v : App.FormValue) :
  NoDup (App.names form) ->
  (In (name, v) form <-> App.get form name = Some v).
Proof.
  induction form as [| (n, w) form IH]; simpl; intros Hnd.
  - split; [intros [] | discriminate].
  - inversion Hnd as [| ? ? Hnotin Hnd']; subst.
    destruct (String.eqb_spec n name) as [-> | Hne].
    + split.
      * intros [[= ->] | Hin]; [reflexivity |].
        exfalso. apply Hnotin. unfold App.names.
        change name with (fst (name, v)). now apply in_map.
      * intros [= ->]. now left.
    + rewrite <- (IH Hnd'). split.
      * intros [[= -> _] | Hin]; [now contradiction Hne | exact Hin].
      * intros Hin. now right.
Qed.

(** X5. No two entries of the form have the same name, so every entry
    is the one [get] finds under its name; the form has nine entries
    when the width and the height are both set and eight otherwise. *)
Theorem form_names_are_distinct (st : App.State) (f : App.File) :
  NoDup (App.names (App.build_form st f))
  /\ (forall name v,
         In (name, v) (App.build_form st f)
         <-> App.get (App.build_form st f) name = Some v)
  /\ List.length (App.build_form st f)
     = (if JS.truthy (App.width st) && JS.truthy (App.height st) then 9 else 8)%nat.
Proof.
  assert (Hnd : NoDup (App.names (App.build_form st f))).
  { rewrite build_form_entries. unfold geometry_fields, parameter_fields.
    destruct (JS.truthy (App.width st)), (JS.truthy (App.height st)); simpl;
      repeat (constructor;
              [simpl; intros H;
               repeat (destruct H as [H | H]; [discriminate H |]); exact H |]);
      constructor. }
  split; [exact Hnd |]. split.
  - intros name v. now apply get_of_distinct_names.
  - rewrite build_form_entries. unfold geometry_fields, parameter_fields.
    destruct (JS.truthy (App.width st)), (JS.truthy (App.height st)); reflexivity.
Qed.

(** ** Inputs that are not numerals *)

Lemma blank_is_not_a_number (v : string) :
  JS.trim_start v = EmptyString ->
  JS.parseInt v = nan /\ JS.parseFloat v = nan.
Proof.
  intros Hv. unfold JS.parseInt, JS.parseFloat. rewrite Hv. split; reflexivity.
Qed.

Lemma String_of_nan : App.String_ nan = App.FormString "NaN".
Proof. vm_compute. reflexivity. Qed.

(** The entries about the size do not hide a parameter. *)
Lemma get_past_geometry (st : App.State) (rest : App.FormData) (name : string) :
  String.eqb "width" name = false ->
  String.eqb "height" name = false ->
  String.eqb "scale" name = false ->
  App.get (geometry_fields st ++ rest) name = App.get rest name.
Proof.
  intros Hw Hh Hs. unfold geometry_fields.
  destruct (JS.truthy (App.width st)), (JS.truthy (App.height st));
    cbn [App.get app orb]; now rewrite ?Hw, ?Hh, ?Hs.
Qed.

(** After the event of a numeric input, the form of the state carries
    under the name of that input the [String] of what its handler
    parsed. *)
Lemma input_reaches_form
    (env : option string) (c c' : App.Client)
    (input : string -> App.Event) (name : string) (parse : string -> JS.number)
    (v : string) (f : App.File) :
  In (input, name, parse) numeric_inputs ->
  App.step env c (input v) = Some c' ->
  App.get (App.build_form (App.ui c') f) name = Some (App.String_ (parse v)).
Proof.
  intros Hin Hstep.
  rewrite build_form_entries.
  unfold numeric_inputs in Hin. simpl in Hin.
  repeat (destruct Hin as [Hin | Hin];
          [injection Hin as <- <- <-; simpl in Hstep |]);
    try contradiction;
    try (injection Hstep as <-; cbn [App.get String.eqb Ascii.eqb Bool.eqb];
         rewrite get_past_geometry by reflexivity; reflexivity).
  (* scale: the input is enabled, so neither side of the size is set *)
  destruct (App.scale_disabled (App.ui c)) eqn:Hdis; [discriminate |].
  injection Hstep as <-. cbn [App.get String.eqb Ascii.eqb Bool.eqb].
  rewrite get_scale_geometry. cbn [App.ui App.with_ui].
  unfold App.scale_disabled in Hdis.
  change (App.width (App.setScale (JS.parseFloat v) (App.ui c)))
    with (App.width (App.ui c)).
  change (App.height (App.setScale (JS.parseFloat v) (App.ui c)))
    with (App.height (App.ui c)).
  now rewrite Hdis.
Qed.

(** X7. An empty or blank value in a numeric input is parsed to NaN and
    sent as it is: after such an input event, for each of the seven
    numeric inputs, the form of the state carries [NaN] under the name
    of that input. *)
Theorem blank_input_is_sent_as_NaN
    (env : option string) (c c' : App.Client)
    (input : string -> App.Event) (name : string) (parse : string -> JS.number)
    (v : string) (f : App.File) :
  In (input, name, parse) numeric_inputs ->
  JS.trim_start v = EmptyString ->
  App.step env c (input v) = Some c' ->
  App.get (App.build_form (App.ui c') f) name = Some (App.FormString "NaN").
Proof.
  intros Hin Hv Hstep.
  rewrite (input_reaches_form env c c' input name parse v f Hin Hstep).
  destruct (blank_is_not_a_number v Hv) as [Hint Hfloat].
  unfold numeric_inputs in Hin. simpl in Hin.
  repeat (destruct Hin as [Hin | Hin]; [injection Hin as <- <- <- |]);
    try contradiction;
    rewrite ?Hint, ?Hfloat; now rewrite String_of_nan.
Qed.

Lemma blank_input_is_sent_as_NaN_witness :
  In (App.InputSaturation, "saturation"%string, JS.parseFloat) numeric_inputs
  /\ JS.trim_start "  " = EmptyString
  /\ App.get
       (App.build_form (App.setSaturation (JS.parseFloat "  ") ready) photo)
       "saturation"
     = Some (App.FormString "NaN").
Proof.
  assert (Hin : In (App.InputSaturation, "saturation"%string, JS.parseFloat)
                   numeric_inputs)
    by (unfold numeric_inputs; simpl; auto 10).
  split; [exact Hin |]. split; [reflexivity |].
  exact (blank_input_is_sent_as_NaN None (App.with_ui App.mounted ready) _
           App.InputSaturation "saturation" JS.parseFloat "  " photo
           Hin eq_refl eq_refl).
Defined.

(** ** Sizes that are not plain integers *)

Lemma digit_cases (d : ascii) :
  Str.is_digit d = true ->
  In d ["0"; "1"; "2"; "3"; "4"; "5"; "6"; "7"; "8"; "9"]%char.
Proof.
  destruct d as [[] [] [] [] [] [] [] []]; intros H; try discriminate H;
    simpl; auto 12.
Qed.

Lemma span_all (p : ascii -> bool) (ds : string) :
  Str.forallb p ds = true -> Str.span p ds = (ds, EmptyString).
Proof.
  induction ds as [| c ds IH]; simpl; [reflexivity |].
  intros H. apply andb_true_iff in H. destruct H as [Hc Hds].
  now rewrite Hc, (IH Hds).
Qed.

Lemma span_until (p : ascii -> bool) (ds : string) (c : ascii) (rest : string) :
  Str.forallb p ds = true -> p c = false ->
  Str.span p (ds ++ String c rest) = (ds, String c rest).
Proof.
  induction ds as [| d ds IH]; simpl; intros H Hc.
  - now rewrite Hc.
  - apply andb_true_iff in H. destruct H as [Hd Hds].
    now rewrite Hd, (IH Hds Hc).
Qed.

Lemma parseInt_of_digit (d : ascii) (t : string) :
  Str.is_digit d = true -> no_hex_mark t = true ->
  JS.parseInt (String d t)
  = decimal_number (fst (Str.span Str.is_digit (String d t))).
Proof.
  intros Hd Ht.
  apply digit_cases in Hd. simpl in Hd.
  repeat (destruct Hd as [<- | Hd]); try contradiction;
    unfold JS.parseInt, decimal_number;
    cbn [JS.trim_start Str.drop_while]; decide_chars;
    cbn [JS.take_sign Str.span]; decide_chars; cbn iota;
    try (destruct (Str.span Str.is_digit t) as [a b]; reflexivity).
  destruct t as [| c2 t2].
  - reflexivity.
  - unfold no_hex_mark in Ht.
    destruct c2 as [[] [] [] [] [] [] [] []];
      try discriminate Ht;
      cbn [Str.span]; decide_chars; cbn iota;
      try (destruct (Str.span Str.is_digit t2) as [a b]); reflexivity.
Qed.

Lemma digits_no_hex_mark (t s : string) :
  Str.forallb Str.is_digit t = true -> no_hex_mark s = true ->
  no_hex_mark (t ++ s) = true /\ no_hex_mark t = true.
Proof.
  intros Ht Hs. destruct t as [| e t']; [now split |].
  simpl in Ht. apply andb_true_iff in Ht. destruct Ht as [He _].
  apply digit_cases in He. simpl in He.
  repeat (destruct He as [<- | He]); try contradiction; now split.
Qed.

Lemma parseInt_digits_then (ds : string) (c : ascii) (rest : string) :
  ds <> EmptyString ->
  Str.forallb Str.is_digit ds = true ->
  Str.is_digit c = false -> c <> "x"%char -> c <> "X"%char ->
  JS.parseInt (ds ++ String c rest) = JS.parseInt ds.
Proof.
  intros Hne Hds Hc Hx HX.
  destruct ds as [| d t]; [now contradiction Hne |].
  pose proof Hds as Hall.
  simpl in Hds. apply andb_true_iff in Hds. destruct Hds as [Hd Ht].
  assert (Hc' : no_hex_mark (String c rest) = true).
  { simpl. apply andb_true_iff.
    split; apply negb_true_iff, Ascii.eqb_neq; assumption. }
  destruct (digits_no_hex_mark t (String c rest) Ht Hc') as [Hm1 Hm2].
  cbn [String.append].
  rewrite (parseInt_of_digit d (t ++ String c rest) Hd Hm1).
  rewrite (parseInt_of_digit d t Hd Hm2).
  change (String d (t ++ String c rest)) with (String d t ++ String c rest)%string.
  now rewrite (span_until _ _ _ _ Hall Hc), (span_all _ _ Hall).
Qed.

(** X6. [parseInt] stops at the first character that is not a digit, so
    a size typed with a fraction or an exponent is sent cut there: when
    the width or height field is a non-empty run of digits followed by
    such a character (other than the [x] of a hexadecimal prefix), the
    form carries what it would carry for the digits alone.  The two
    denoise inputs store their value cut the same way. *)
Theorem size_is_cut_at_first_non_digit
    (env : option string) (st : App.State) (f : App.File)
    (ds : string) (c : ascii) (rest : string) :
  ds <> EmptyString ->
  Str.forallb Str.is_digit ds = true ->
  Str.is_digit c = false -> c <> "x"%char -> c <> "X"%char ->
  (App.width st = (ds ++ String c rest)%string ->
   App.get (App.build_form st f) "width" = Some (App.String_ (JS.parseInt ds)))
  /\ (App.height st = (ds ++ String c rest)%string ->
      App.get (App.build_form st f) "height" = Some (App.String_ (JS.parseInt ds)))
  /\ (forall cl,
         App.step env cl (App.InputDenoiseLuma (ds ++ String c rest))
         = App.step env cl (App.InputDenoiseLuma ds))
  /\ (forall cl,
         App.step env cl (App.InputDenoiseColor (ds ++ String c rest))
         = App.step env cl (App.InputDenoiseColor ds)).
Proof.
  intros Hne Hds Hc Hx HX.
  pose proof (parseInt_digits_then ds c rest Hne Hds Hc Hx HX) as Hcut.
  assert (Htruthy : JS.truthy (ds ++ String c rest) = true).
  { destruct ds; [now contradiction Hne | reflexivity]. }
  split; [| split; [| split]].
  - intros Hw. rewrite build_form_entries. unfold geometry_fields.
    rewrite Hw, Htruthy, Hcut.
    destruct (JS.truthy (App.height st)); reflexivity.
  - intros Hh. rewrite build_form_entries. unfold geometry_fields.
    rewrite Hh, Htruthy, Hcut.
    destruct (JS.truthy (App.width st)); reflexivity.
  - intros cl. cbn [App.step]. now rewrite Hcut.
  - intros cl. cbn [App.step]. now rewrite Hcut.
Qed.

Lemma size_is_cut_at_first_non_digit_witness :
  App.get (App.build_form (App.setWidth "12.7" ready) photo) "width"
  = Some (App.String_ (JS.parseInt "12")).
Proof.
  apply (size_is_cut_at_first_non_digit None (App.setWidth "12.7" ready) photo
           "12" "." "7");
    try reflexivity; discriminate.
Defined.

(** ** Error and result over time *)

Lemma settled_state_with (st st' : App.State) :
  progress st' = progress st -> settled_state st -> settled_state st'.
Proof.
  unfold progress, settled_state. intros [= Hb He Hr].
  now rewrite Hb, He, Hr.
Qed.

Lemma settled_state_preserved (env : option string) (c c' : App.Client) (ev : App.Event) :
  in_step c -> settled_state (App.ui c) ->
  App.step env c ev = Some c' -> settled_state (App.ui c').
Proof.
  intros (_ & Hbusy & _) Hst Hstep.
  destruct ev; simpl in Hstep;
    try (injection Hstep as <-; now apply (settled_state_with (App.ui c))).
  - destruct (App.scale_disabled (App.ui c)); [discriminate |].
    injection Hstep as <-. now apply (settled_state_with (App.ui c)).
  - destruct (App.submit_disabled (App.ui c)); [discriminate |].
    destruct (App.passes_validation _ _); [| now injection Hstep as <-].
    unfold App.onSubmit in Hstep.
    destruct (App.file (App.ui c)); injection Hstep as <-; [| exact Hst].
    unfold settled_state; simpl. repeat split; auto. discriminate.
  - destruct (App.pending c) as [| r rs] eqn:Hp; [discriminate |].
    injection Hstep as <-. cbn [App.ui].
    assert (Hb : App.busy (App.ui c) = true) by (apply Hbusy; discriminate).
    destruct Hst as (Hquiet & _ & _). destruct (Hquiet Hb) as [He Hr].
    unfold App.onSubmit_settled.
    destruct (App.try_block o) as [err | data];
      unfold settled_state; simpl; repeat split; auto; try discriminate.
    + intros msg [= <-]. apply message_of_truthy.
    + intros msg Hmsg. rewrite He in Hmsg. discriminate Hmsg.
Qed.

(** X8. The component never holds an error and a result at once: at
    every client a mounted component can become, the error or the result
    is null, both are null while a request is pending, and an error that
    is set is a non-empty message, so it is shown. *)
Theorem error_and_result_exclude_each_other (env : option string) (c : App.Client) :
  App.reachable env c ->
  (App.busy (App.ui c) = true ->
   App.error (App.ui c) = None /\ App.result (App.ui c) = None)
  /\ (App.error (App.ui c) = None \/ App.result (App.ui c) = None)
  /\ (forall msg, App.error (App.ui c) = Some msg ->
        App.error_text (App.ui c) = [App.ErrorText msg]).
Proof.
  intros Hreach.
  assert (H : settled_state (App.ui c)).
  { induction Hreach as [| c ev c' Hc IH Hstep].
    - unfold settled_state; simpl. repeat split; auto; discriminate.
    - exact (settled_state_preserved env c c' ev
               (reachable_in_step env c Hc) IH Hstep). }
  destruct H as (Hquiet & Hone & Hmsg).
  repeat split; try apply Hquiet; auto.
  intros msg He. unfold App.error_text. now rewrite He, (Hmsg msg He).
Qed.

Lemma error_and_result_exclude_each_other_witness :
  App.reachable None enhancing
  /\ App.error (App.ui enhancing) = None
  /\ App.result (App.ui enhancing) = None.
Proof.
  split; [exact enhancing_reachable |].
  apply (error_and_result_exclude_each_other None enhancing enhancing_reachable).
  reflexivity.
Defined.

(** ** A value that is not a data URL *)

Lemma DownloadButton_throws (label filename v : string) :
  v <> EmptyString -> Str.existsb is_comma v = false ->
  App.DownloadButton label (Some v) filename = None.
Proof.
  intros Hne Hv. unfold App.DownloadButton, dataUrlToBlob.
  replace (JS.truthy v) with true by (symmetry; now apply truthy_iff).
  rewrite (split_without_comma v Hv).
  cbn [negb hd nth_error JS.ToString_or_undefined].
  now rewrite atob_undefined.
Qed.

(** X9. The formats do not render independently once a value is
    malformed: if the value under any one key is a non-empty string
    without a comma, rendering the card throws, whatever the other keys
    hold, and so does rendering the page of a state with that result. *)
Theorem malformed_value_fails_whole_card (r : App.Result) (fmt : Format) (v : string) :
  value_of fmt r = Some v ->
  v <> EmptyString ->
  Str.existsb is_comma v = false ->
  App.result_card r = None
  /\ (forall st, App.result st = Some r -> App.render st = None).
Proof.
  intros Hv Hne Hcomma.
  assert (Hcard : App.result_card r = None).
  { unfold App.result_card.
    destruct fmt; simpl in Hv; rewrite Hv;
      rewrite (DownloadButton_throws _ _ v Hne Hcomma);
      repeat match goal with
             | |- context [match App.DownloadButton ?l ?x ?n with _ => _ end] =>
                 destruct (App.DownloadButton l x n)
             end;
      reflexivity. }
  split; [exact Hcard |].
  intros st Hst. unfold App.render. now rewrite Hst, Hcard.
Qed.

Lemma malformed_value_fails_whole_card_witness :
  App.result_card
    {| App.png := Some (data_url "image/png" [x89; x50]);
       App.jpg := Some "not a data url"%string;
       App.webp := None;
       App.apng := None |}
  = None.
Proof.
  apply (malformed_value_fails_whole_card _ JPG "not a data url");
    [reflexivity | discriminate | reflexivity].
Defined.

(** ** Rendering after well-formed responses *)

Lemma result_card_renders (r : App.Result) :
  api_response r -> exists card, App.result_card r = Some card.
Proof.
  intros Hr. unfold App.result_card.
  destruct (DownloadButton_of "PNG" "image_enhanced.png" (App.png r) (Hr PNG))
    as (b1 & -> & _).
  destruct (DownloadButton_of "JPG" "image_enhanced.jpg" (App.jpg r) (Hr JPG))
    as (b2 & -> & _).
  destruct (DownloadButton_of "WEBP" "image_enhanced.webp" (App.webp r) (Hr WEBP))
    as (b3 & -> & _).
  destruct (DownloadButton_of "APNG" "image_enhanced.apng" (App.apng r) (Hr APNG))
    as (b4 & -> & _).
  eexists. reflexivity.
Qed.

Lemma holds_api_response_with (st st' : App.State) :
  App.result st' = App.result st -> holds_api_response st -> holds_api_response st'.
Proof.
  unfold holds_api_response. intros ->. auto.
Qed.

Lemma holds_api_response_preserved
    (env : option string) (c c' : App.Client) (ev : App.Event) :
  well_formed_event ev -> holds_api_response (App.ui c) ->
  App.step env c ev = Some c' -> holds_api_response (App.ui c').
Proof.
  intros Hev Hst Hstep.
  destruct ev; simpl in Hstep;
    try (injection Hstep as <-; now apply (holds_api_response_with (App.ui c))).
  - destruct (App.scale_disabled (App.ui c)); [discriminate |].
    injection Hstep as <-. now apply (holds_api_response_with (App.ui c)).
  - destruct (App.submit_disabled (App.ui c)); [discriminate |].
    destruct (App.passes_validation _ _); [| now injection Hstep as <-].
    unfold App.onSubmit in Hstep.
    destruct (App.file (App.ui c)); injection Hstep as <-; [| exact Hst].
    intros r Hr. discriminate Hr.
  - destruct (App.pending c) as [| req reqs]; [discriminate |].
    injection Hstep as <-. cbn [App.ui].
    unfold App.onSubmit_settled, App.try_block.
    destruct o as [err | res].
    + now apply (holds_api_response_with (App.ui c)).
    + destruct (App.ok res); cbn [negb];
        [| now apply (holds_api_response_with (App.ui c))].
      simpl in Hev.
      destruct (App.json res) as [err | [r |]];
        try (now apply (holds_api_response_with (App.ui c))).
      * intros r' [= <-]. exact Hev.
      * intros r' Hr'. discriminate Hr'.
Qed.

Lemma run_holds_api_response
    (env : option string) (evs : list App.Event) (c c' : App.Client) :
  Forall well_formed_event evs -> holds_api_response (App.ui c) ->
  App.run env c evs = Some c' -> holds_api_response (App.ui c').
Proof.
  intros Hevs. revert c.
  induction Hevs as [| ev evs Hev _ IH]; simpl; intros c Hc Hrun.
  - now injection Hrun as <-.
  - destruct (App.step env c ev) as [c1 |] eqn:Hstep; [| discriminate].
    apply (IH c1); [| exact Hrun].
    exact (holds_api_response_preserved env c c1 ev Hev Hc Hstep).
Qed.

(** X10. As long as every response body that arrives is a response of
    the API, the page renders after any sequence of events: no edit,
    submission, failure or partial response makes rendering throw. *)
Theorem page_renders_after_api_responses
    (env : option string) (evs : list App.Event) (c : App.Client) :
  Forall well_formed_event evs ->
  App.run env App.mounted evs = Some c ->
  exists page, App.render (App.ui c) = Some page.
Proof.
  intros Hevs Hrun.
  assert (Hc : holds_api_response (App.ui c)).
  { apply (run_holds_api_response env evs App.mounted c Hevs); [| exact Hrun].
    intros r Hr. discriminate Hr. }
  unfold App.render.
  destruct (App.result (App.ui c)) as [r |] eqn:Hr; [| now eexists].
  destruct (result_card_renders r (Hc r Hr)) as (card & ->).
  now eexists.
Qed.

Lemma shown_partial_well_formed : Forall well_formed_event shown_partial.
Proof.
  unfold shown_partial. repeat constructor.
  exact partial_response_is_api_response.
Qed.

Lemma page_renders_after_api_responses_witness :
  Forall well_formed_event shown_partial
  /\ exists c page,
       App.run None App.mounted shown_partial = Some c
       /\ App.render (App.ui c) = Some page.
Proof.
  split; [exact shown_partial_well_formed |].
  eexists. 
  assert (Hrun : App.run None App.mounted shown_partial
                 = Some {| App.ui := App.onSubmit_settled
                                       (App.Resolved
                                          {| App.status := 200;
                                             App.json := inr (Some partial_response) |})
                                       (fst (App.onSubmit None ready));
                           App.pending := [];
                           App.sent := [App.enhance_request None ready photo] |})
    by reflexivity.
  destruct (page_renders_after_api_responses None shown_partial _
              shown_partial_well_formed Hrun) as (page & Hpage).
  exists page. split; [exact Hrun | exact Hpage].
Defined.

(** ** What an event leaves alone *)

(** X11. A submission never alters what the user entered, and an edit
    never touches a request: pressing the button and a fetch settling
    leave the file and the nine parameters as they are, and every other
    event leaves [busy], the error, the result and the requests as they
    are. *)
Theorem events_keep_their_side
    (env : option string) (c c' : App.Client) (ev : App.Event) :
  App.step env c ev = Some c' ->
  if is_press ev || is_settle ev
  then inputs (App.ui c') = inputs (App.ui c)
  else progress (App.ui c') = progress (App.ui c)
       /\ App.pending c' = App.pending c
       /\ App.sent c' = App.sent c.
Proof.
  intros Hstep.
  destruct ev; simpl in Hstep; cbn [is_press is_settle orb];
    try (injection Hstep as <-; repeat split).
  - destruct (App.scale_disabled (App.ui c)); [discriminate |].
    injection Hstep as <-. repeat split.
  - destruct (App.submit_disabled (App.ui c)); [discriminate |].
    destruct (App.passes_validation _ _); [| now injection Hstep as <-].
    unfold App.onSubmit in Hstep.
    destruct (App.file (App.ui c)) eqn:Hf; injection Hstep as <-;
      unfold inputs; simpl; now rewrite ?Hf.
  - destruct (App.pending c) as [| req reqs]; [discriminate |].
    injection Hstep as <-. unfold App.onSubmit_settled.
    destruct (App.try_block o); reflexivity.
Qed.

Lemma events_keep_their_side_witness :
  App.step None (App.with_ui App.mounted ready) (App.PressSubmit true) = Some enhancing
  /\ inputs (App.ui enhancing) = inputs ready.
Proof.
  split; [reflexivity |].
  exact (events_keep_their_side None (App.with_ui App.mounted ready) enhancing
           (App.PressSubmit true) eq_refl).
Defined.

(** ** The requests of a run *)

Lemma API_BASE_not_empty (env : option string) : JS.truthy (App.API_BASE env) = true.
Proof.
  unfold App.API_BASE.
  destruct env as [base |]; [| reflexivity].
  destruct (JS.truthy base) eqn:Hb; [exact Hb | reflexivity].
Qed.

(** The requests of a client: those already settled, then the pending
    ones; all of them POSTs to the one address. *)
Lemma run_requests (env : option string) (evs : list App.Event) (c c' : App.Client)
    (done : list App.Request) :
  App.sent c = done ++ App.pending c ->
  Forall (fun r => App.req_method r = "POST"%string
                   /\ App.req_url r = (App.API_BASE env ++ "/api/enhance")%string)
         (App.sent c) ->
  App.run env c evs = Some c' ->
  exists done',
    App.sent c' = done' ++ App.pending c'
    /\ List.length done' = (List.length done + settles evs)%nat
    /\ List.length (App.sent c')
       = (List.length (App.sent c) + submissions env c evs)%nat
    /\ Forall (fun r => App.req_method r = "POST"%string
                        /\ App.req_url r = (App.API_BASE env ++ "/api/enhance")%string)
              (App.sent c').
Proof.
  revert c done.
  induction evs as [| ev evs IH]; simpl; intros c done Hsent Hall Hrun.
  - injection Hrun as <-. exists done.
    unfold settles; simpl. repeat split; auto; lia.
  - destruct (App.step env c ev) as [c1 |] eqn:Hstep; [| discriminate].
    assert (H1 : exists done1,
               App.sent c1 = done1 ++ App.pending c1
               /\ List.length done1
                  = (List.length done + (if is_settle ev then 1 else 0))%nat
               /\ List.length (App.sent c1)
                  = (List.length (App.sent c)
                     + (if submits (App.ui c) ev then 1 else 0))%nat
               /\ Forall (fun r => App.req_method r = "POST"%string
                                   /\ App.req_url r
                                      = (App.API_BASE env ++ "/api/enhance")%string)
                         (App.sent c1)).
    { destruct ev; simpl in Hstep; cbn [submits];
        try (injection Hstep as <-; exists done; simpl;
             repeat split; auto; lia).
      - destruct (App.scale_disabled (App.ui c)); [discriminate |].
        injection Hstep as <-. exists done. simpl. repeat split; auto; lia.
      - unfold App.submit_disabled, App.canSubmit in Hstep.
        unfold App.onSubmit in Hstep.
        destruct (App.file (App.ui c)) as [f |]; [| discriminate].
        destruct (negb (negb (App.busy (App.ui c)))); [discriminate |].
        destruct (App.passes_validation _ _);
          [| injection Hstep as <-; exists done; simpl; repeat split; auto; lia].
        injection Hstep as <-. exists done. simpl.
        rewrite Hsent, <- app_assoc, !length_app. simpl.
        repeat split; auto; try lia.
        rewrite app_assoc, <- Hsent. apply Forall_app. split; [exact Hall |].
        repeat constructor.
      - destruct (App.pending c) as [| req reqs] eqn:Hp; [discriminate |].
        injection Hstep as <-. exists (done ++ [req]). simpl.
        rewrite Hsent, <- app_assoc, !length_app. simpl.
        repeat split; auto; try lia. now rewrite <- Hsent. }
    destruct H1 as (done1 & Hs1 & Hd1 & Hl1 & Hall1).
    destruct (IH c1 done1 Hs1 Hall1 Hrun) as (done' & Hs' & Hd' & Hl' & Hall').
    exists done'. unfold settles in *. simpl.
    repeat split; auto.
    + rewrite Hd', Hd1. destruct (is_settle ev); simpl; lia.
    + rewrite Hl', Hl1. lia.
Qed.

(** X12. After any run of events from the mounted component, the
    requests sent are as many as the submit events, that is the presses
    of the enabled button that pass constraint validation; each is a
    POST to API_BASE followed by [/api/enhance], where API_BASE is never
    empty; as many of them as fetches have settled are done, and the
    pending ones are the latest. *)
Theorem requests_follow_presses
    (env : option string) (evs : list App.Event) (c : App.Client) :
  App.run env App.mounted evs = Some c ->
  List.length (App.sent c) = submissions env App.mounted evs
  /\ (exists done,
        App.sent c = done ++ App.pending c /\ List.length done = settles evs)
  /\ Forall (fun r => App.req_method r = "POST"%string
                      /\ App.req_url r = (App.API_BASE env ++ "/api/enhance")%string)
            (App.sent c)
  /\ JS.truthy (App.API_BASE env) = true.
Proof.
  intros Hrun.
  destruct (run_requests env evs App.mounted c [] eq_refl (Forall_nil _) Hrun)
    as (done & Hs & Hd & Hl & Hall).
  repeat split; auto.
  - exists done. split; [exact Hs | exact Hd].
  - apply API_BASE_not_empty.
Qed.

Lemma requests_follow_presses_witness :
  match App.run None App.mounted blocked_then_sent with
  | Some c => List.length (App.sent c) = 1%nat
  | None => False
  end.
Proof.
  destruct (App.run None App.mounted blocked_then_sent) as [c |] eqn:Hrun.
  - rewrite (proj1 (requests_follow_presses None blocked_then_sent c Hrun)).
    reflexivity.
  - vm_compute in Hrun. discriminate Hrun.
Defined.

(** ** Numbers that go through unchanged *)

Lemma integers_survive : forallb integer_survives_at (seq 0 (Z.to_nat 4096)) = true.
Proof. vm_compute. reflexivity. Qed.

Lemma hundredths_survive : forallb hundredth_survives_at (seq 0 (Z.to_nat 1001)) = true.
Proof. vm_compute. reflexivity. Qed.

Lemma integer_survives (n : Z) :
  0 <= n < 4096 ->
  JS.truthy (Str.of_nonneg n) = true
  /\ JS.NumberToString (JS.parseInt (Str.of_nonneg n)) = Str.of_nonneg n.
Proof.
  intros Hn.
  assert (Hin : In (Z.to_nat n) (seq 0 (Z.to_nat 4096))) by (apply in_seq; lia).
  pose proof (proj1 (forallb_forall integer_survives_at _) integers_survive
                (Z.to_nat n) Hin) as H.
  unfold integer_survives_at in H.
  rewrite Z2Nat.id in H by lia.
  apply andb_true_iff in H. destruct H as [Ht He].
  split; [exact Ht | now apply String.eqb_eq].
Qed.

Lemma hundredth_survives (k : Z) :
  0 <= k <= 1000 ->
  JS.NumberToString (JS.parseFloat (hundredths k)) = hundredths k.
Proof.
  intros Hk.
  assert (Hin : In (Z.to_nat k) (seq 0 (Z.to_nat 1001))) by (apply in_seq; lia).
  pose proof (proj1 (forallb_forall hundredth_survives_at _) hundredths_survive
                (Z.to_nat k) Hin) as H.
  unfold hundredth_survives_at in H.
  rewrite Z2Nat.id in H by lia.
  now apply String.eqb_eq.
Qed.

(** X13. An integer from 0 to 4095 written in decimal goes through
    unchanged: as the width or the height field it is sent as that same
    numeral, and typed into a denoise input it is sent as that same
    numeral by the next form. *)
Theorem integers_are_sent_unchanged (env : option string) (n : Z) :
  0 <= n < 4096 ->
  (forall st f,
      App.width st = Str.of_nonneg n ->
      App.get (App.build_form st f) "width"
      = Some (App.FormString (Str.of_nonneg n)))
  /\ (forall st f,
         App.height st = Str.of_nonneg n ->
         App.get (App.build_form st f) "height"
         = Some (App.FormString (Str.of_nonneg n)))
  /\ (forall c c' f,
         App.step env c (App.InputDenoiseLuma (Str.of_nonneg n)) = Some c' ->
         App.get (App.build_form (App.ui c') f) "denoise_luma"
         = Some (App.FormString (Str.of_nonneg n)))
  /\ (forall c c' f,
         App.step env c (App.InputDenoiseColor (Str.of_nonneg n)) = Some c' ->
         App.get (App.build_form (App.ui c') f) "denoise_color"
         = Some (App.FormString (Str.of_nonneg n))).
Proof.
  intros Hn. destruct (integer_survives n Hn) as [Ht Hs].
  split; [| split; [| split]].
  - intros st f Hw. rewrite build_form_entries. unfold geometry_fields, App.String_.
    rewrite Hw, Ht, Hs.
    destruct (JS.truthy (App.height st)); reflexivity.
  - intros st f Hh. rewrite build_form_entries. unfold geometry_fields, App.String_.
    rewrite Hh, Ht, Hs.
    destruct (JS.truthy (App.width st)); reflexivity.
  - intros c c' f Hstep.
    rewrite (input_reaches_form env c c' App.InputDenoiseLuma "denoise_luma"
               JS.parseInt (Str.of_nonneg n) f);
      [| unfold numeric_inputs; simpl; auto 10 | exact Hstep].
    unfold App.String_. now rewrite Hs.
  - intros c c' f Hstep.
    rewrite (input_reaches_form env c c' App.InputDenoiseColor "denoise_color"
               JS.parseInt (Str.of_nonneg n) f);
      [| unfold numeric_inputs; simpl; auto 10 | exact Hstep].
    unfold App.String_. now rewrite Hs.
Qed.

Lemma integers_are_sent_unchanged_witness :
  App.get (App.build_form (App.setWidth "1920" ready) photo) "width"
  = Some (App.FormString "1920").
Proof.
  assert (Hn : 0 <= 1920 < 4096) by lia.
  apply (proj1 (integers_are_sent_unchanged None 1920 Hn)
           (App.setWidth "1920" ready) photo).
  reflexivity.
Defined.

(** X14. A multiple of 0.01 from 0 to 10 goes through unchanged: typed
    as the text of that number into the scale input or into one of the
    four inputs parsed by [parseFloat], it is sent as that same text by
    the next form. *)
Theorem hundredths_are_sent_unchanged
    (env : option string) (c c' : App.Client)
    (input : string -> App.Event) (name : string) (k : Z) (f : App.File) :
  In (input, name, JS.parseFloat) numeric_inputs ->
  0 <= k <= 1000 ->
  App.step env c (input (hundredths k)) = Some c' ->
  App.get (App.build_form (App.ui c') f) name
  = Some (App.FormString (hundredths k)).
Proof.
  intros Hin Hk Hstep.
  rewrite (input_reaches_form env c c' input name JS.parseFloat (hundredths k) f
             Hin Hstep).
  unfold App.String_. now rewrite (hundredth_survives k Hk).
Qed.

Lemma hundredths_are_sent_unchanged_witness :
  hundredths 105 = "1.05"%string
  /\ App.get
       (App.build_form (App.setSaturation (JS.parseFloat "1.05") ready) photo)
       "saturation"
     = Some (App.FormString "1.05").
Proof.
  split; [vm_compute; reflexivity |].
  assert (Hin : In (App.InputSaturation, "saturation"%string, JS.parseFloat)
                   numeric_inputs)
    by (unfold numeric_inputs; simpl; auto 10).
  assert (Hk : 0 <= 105 <= 1000) by lia.
  assert (Htext : hundredths 105 = "1.05"%string) by (vm_compute; reflexivity).
  pose proof (hundredths_are_sent_unchanged None (App.with_ui App.mounted ready)
                (App.with_ui App.mounted
                   (App.setSaturation (JS.parseFloat (hundredths 105)) ready))
                App.InputSaturation "saturation" 105 photo Hin Hk eq_refl) as H.
  cbn [App.ui App.with_ui] in H. rewrite Htext in H. exact H.
Defined.
